(** * HappyHomeBE: block-schema validation and booking admission

    A shallow embedding of [src/config/blockSchemas.js] (the schema catalog
    and [validateBlock]) and of [src/validators/bookingValidator.js]
    ([validateBookingRequest]), with the properties the specification states
    about them.

    JavaScript strings are kept as byte strings (UTF-8).  Integers that the
    code computes with (lengths, indices, bounds of the catalog, millisecond
    time stamps, the results of [parseInt]) are mathematical integers; they
    coincide with the IEEE doubles of the program below 2^53. *)

From Stdlib Require Import ZArith QArith List String Ascii Bool Lia.
From Stdlib Require Import DecimalString.
From Stdlib Require DecimalPos DecimalNat.
Import ListNotations.

Set Warnings "-register-all".

Local Open Scope string_scope.
Local Open Scope Z_scope.

(** ** JavaScript values *)

Module JS.

(** A thrown exception.  The only one the modelled code can raise is the
    [TypeError] of a property read on [undefined]/[null] (or of
    [Object.entries(undefined)]). *)
Inductive exn : Type := TypeError.

(** Result of running a piece of code: it returns or it throws. *)
Inductive outcome (A : Type) : Type :=
| Ok (a : A)
| Throw (e : exn).
Arguments Ok {A} a.
Arguments Throw {A} e.

Definition bind {A B : Type} (m : outcome A) (k : A -> outcome B) : outcome B :=
  match m with
  | Ok a => k a
  | Throw e => Throw e
  end.

Notation "x <- m ;; k" := (bind m (fun x => k))
  (at level 61, m at next level, right associativity).

(** A Number: NaN, the two infinities, or a finite value.  Finite doubles
    are rationals; [-0] behaves like [0] in every operation used here. *)
Inductive number : Type :=
| NaN
| PosInf
| NegInf
| Fin (q : Q).

(** [n === 0] *)
Definition num_is_zero (n : number) : bool :=
  match n with
  | Fin q => Qeq_bool q 0
  | _ => false
  end.

(** [n < z] for an integer [z]; false as soon as [n] is NaN. *)
Definition num_lt_int (n : number) (z : Z) : bool :=
  match n with
  | NaN => false
  | PosInf => false
  | NegInf => true
  | Fin q => negb (Qle_bool (inject_Z z) q)
  end.

(** The values that reach the validators: what [JSON.parse] produces, and
    [undefined] for a property that is not there. *)
Inductive value : Type :=
| VUndefined
| VNull
| VBool (b : bool)
| VNum (n : number)
| VStr (s : string)
| VArr (items : list value)
| VObj (props : list (string * value)).

(** Own-property lookup in the entries of an object (the keys of an object
    are distinct; the first entry of a key is the one found). *)
Fixpoint assoc {A : Type} (k : string) (l : list (string * A)) : option A :=
  match l with
  | [] => None
  | (k', a) :: rest => if String.eqb k' k then Some a else assoc k rest
  end.

(** [v[k]] for a key [k] that is a field name of the catalog.  Reading a
    property of [undefined] or [null] throws; an object yields its own
    property or [undefined]; any other value yields [undefined].  (No field
    name of the catalog is a property inherited from a built-in prototype, so
    the prototype chain of data values is not modelled.  For the name of
    another schema this is [v[k]] when [v] is an object and the name is none
    of [Object.prototype]; the statements about any schema assume both.) *)
Definition get (v : value) (k : string) : outcome value :=
  match v with
  | VUndefined | VNull => Throw TypeError
  | VObj props =>
      match assoc k props with
      | Some x => Ok x
      | None => Ok VUndefined
      end
  | _ => Ok VUndefined
  end.

(** ToBoolean *)
Definition truthy (v : value) : bool :=
  match v with
  | VUndefined | VNull => false
  | VBool b => b
  | VNum NaN => false
  | VNum n => negb (num_is_zero n)
  | VStr s => negb (String.eqb s EmptyString)
  | VArr _ | VObj _ => true
  end.

(** [Array.isArray(v)] *)
Definition isArray (v : value) : bool :=
  match v with
  | VArr _ => true
  | _ => false
  end.

(** [v === ''] *)
Definition is_empty_string (v : value) : bool :=
  match v with
  | VStr s => String.eqb s EmptyString
  | _ => false
  end.

(** [v === undefined], [v === null], [v !== 0], [v !== false] *)
Definition is_undefined (v : value) : bool :=
  match v with VUndefined => true | _ => false end.

Definition is_null (v : value) : bool :=
  match v with VNull => true | _ => false end.

Definition ne_zero (v : value) : bool :=
  match v with
  | VNum n => negb (num_is_zero n)
  | _ => true
  end.

Definition ne_false (v : value) : bool :=
  match v with
  | VBool false => false
  | _ => true
  end.

(** Decimal rendering of an integer and of an array index inside a template
    literal. *)
Definition show_Z (z : Z) : string := NilZero.string_of_int (Z.to_int z).
Definition show_nat (n : nat) : string := NilZero.string_of_uint (Nat.to_uint n).

(** The double-quote character, as a one-character string. *)
Definition dq : string := String (ascii_of_nat 34) EmptyString.

(** [l.forEach(f)] where every call may add errors or throw: the errors are
    collected in call order; a throw aborts the loop. *)
Fixpoint forEach {A E : Type} (f : A -> outcome (list E)) (l : list A)
  : outcome (list E) :=
  match l with
  | [] => Ok []
  | a :: rest =>
      es <- f a ;;
      es' <- forEach f rest ;;
      Ok (es ++ es')%list
  end.

(** The same loop with the 0-based index of each element, starting at [i]. *)
Fixpoint forEachFrom {A E : Type} (f : A -> nat -> outcome (list E))
  (i : nat) (l : list A) : outcome (list E) :=
  match l with
  | [] => Ok []
  | a :: rest =>
      es <- f a i ;;
      es' <- forEachFrom f (S i) rest ;;
      Ok (es ++ es')%list
  end.

End JS.

(** ** The schema catalog and the block validator ([src/config/blockSchemas.js]) *)

Module BlockSchemas.
Import JS.

(** One field definition of a schema.  [label], the bounds, [options],
    [default] and [itemSchema] are optional in the source; [required] that is
    not written is falsy. *)
Inductive FieldRule : Type :=
  mkFieldRule
    (type : string)
    (label : option string)
    (required : bool)
    (min max : option Z)
    (minItems maxItems : option Z)
    (options : option (list string))
    (default : option value)
    (itemSchema : option (list (string * FieldRule))).

Definition type (c : FieldRule) : string :=
  let 'mkFieldRule t _ _ _ _ _ _ _ _ _ := c in t.
Definition label (c : FieldRule) : option string :=
  let 'mkFieldRule _ l _ _ _ _ _ _ _ _ := c in l.
Definition required (c : FieldRule) : bool :=
  let 'mkFieldRule _ _ r _ _ _ _ _ _ _ := c in r.
Definition min (c : FieldRule) : option Z :=
  let 'mkFieldRule _ _ _ m _ _ _ _ _ _ := c in m.
Definition max (c : FieldRule) : option Z :=
  let 'mkFieldRule _ _ _ _ m _ _ _ _ _ := c in m.
Definition minItems (c : FieldRule) : option Z :=
  let 'mkFieldRule _ _ _ _ _ m _ _ _ _ := c in m.
Definition maxItems (c : FieldRule) : option Z :=
  let 'mkFieldRule _ _ _ _ _ _ m _ _ _ := c in m.
Definition options (c : FieldRule) : option (list string) :=
  let 'mkFieldRule _ _ _ _ _ _ _ o _ _ := c in o.
Definition default (c : FieldRule) : option value :=
  let 'mkFieldRule _ _ _ _ _ _ _ _ d _ := c in d.
Definition itemSchema (c : FieldRule) : option (list (string * FieldRule)) :=
  let 'mkFieldRule _ _ _ _ _ _ _ _ _ i := c in i.

(** The shapes of rule the catalog writes. *)
Definition field (t l : string) (r : bool) : FieldRule :=
  mkFieldRule t (Some l) r None None None None None None None.

Definition number_field (l : string) (r : bool) (m : Z) : FieldRule :=
  mkFieldRule "number" (Some l) r (Some m) None None None None None None.

Definition array_field (l : string) (r : bool) (mn : option Z)
  (items : option (list (string * FieldRule))) : FieldRule :=
  mkFieldRule "array" (Some l) r None None mn None None None items.

Record BlockSchema : Type := mkBlockSchema {
  schema_type : string;
  name : string;
  description : string;
  fields : list (string * FieldRule);
  defaultData : value
}.

Module BLOCK_TYPES.
Definition INTRO : string := "intro".
Definition DEFINITION : string := "definition".
Definition PRICING : string := "pricing".
Definition TASK_TAB : string := "task_tab".
Definition PROCESS : string := "process".
Definition BOOKING : string := "booking".
End BLOCK_TYPES.

Definition intro_schema : BlockSchema := {|
  schema_type := BLOCK_TYPES.INTRO;
  name := "Giới thiệu";
  description := "Banner giới thiệu đầu trang";
  fields :=
    [ ("title", field "text" "Tiêu đề (H1)" true);
      ("banner_image_url", field "image" "Ảnh nền Banner" true) ];
  defaultData :=
    VObj [ ("title", VStr "Dịch vụ dọn nhà");
           ("banner_image_url", VStr EmptyString) ]
|}.

Definition definition_schema : BlockSchema := {|
  schema_type := BLOCK_TYPES.DEFINITION;
  name := "Mô tả / Lợi ích";
  description := "Đoạn văn bản giới thiệu chi tiết";
  fields :=
    [ ("title", field "text" "Tiêu đề mục" true);
      ("content", field "richtext" "Nội dung (HTML)" true) ];
  defaultData :=
    VObj [ ("title", VStr "Về dịch vụ");
           ("content", VStr "<p>Mô tả chi tiết...</p>") ]
|}.

Definition pricing_schema : BlockSchema := {|
  schema_type := BLOCK_TYPES.PRICING;
  name := "Bảng giá";
  description := "Hiển thị bảng giá dịch vụ";
  fields :=
    [ ("service_title", field "text" "Tên bảng giá" true);
      ("note", field "textarea" "Ghi chú chung" false);
      ("subservices",
       array_field "Danh sách gói dịch vụ" true (Some 1)
         (Some
            [ ("id", field "text" "Mã gói (ID)" true);
              ("subservice_title", field "text" "Tên gói" true);
              ("price", number_field "Giá (VNĐ)" true 0) ])) ];
  defaultData :=
    VObj [ ("service_title", VStr "Bảng giá dịch vụ");
           ("subservices", VArr []) ]
|}.

Definition task_tab_schema : BlockSchema := {|
  schema_type := BLOCK_TYPES.TASK_TAB;
  name := "Tab công việc";
  description := "Hiển thị các tab nội dung";
  fields :=
    [ ("title", field "text" "Tiêu đề chung" true);
      ("tabs",
       array_field "Danh sách tabs" true (Some 1)
         (Some
            [ ("tab_title", field "text" "Tên tab" true);
              ("description", field "richtext" "Nội dung" true);
              ("image_url", field "image" "Hình ảnh" true) ])) ];
  defaultData :=
    VObj [ ("title", VStr "Chi tiết công việc"); ("tabs", VArr []) ]
|}.

(** The two rules of the process schema. *)
Definition title_rule : FieldRule := field "text" "Tiêu đề quy trình" true.

Definition steps_rule : FieldRule :=
  array_field "Danh sách bước" true (Some 1)
    (Some
       [ ("number", number_field "Số thứ tự" true 1);
         ("step_title", field "text" "Tên bước" true);
         ("description", field "textarea" "Mô tả" true);
         ("image_url", field "image" "Hình ảnh" true) ]).

Definition process_schema : BlockSchema := {|
  schema_type := BLOCK_TYPES.PROCESS;
  name := "Quy trình";
  description := "Hiển thị quy trình từng bước";
  fields := [ ("title", title_rule); ("steps", steps_rule) ];
  defaultData :=
    VObj [ ("title", VStr "Quy trình làm việc"); ("steps", VArr []) ]
|}.

Definition booking_schema : BlockSchema := {|
  schema_type := BLOCK_TYPES.BOOKING;
  name := "Form đặt lịch";
  description := "Khối booking với form động";
  fields :=
    [ ("title", field "text" "Tiêu đề" true);
      ("image_url", field "image" "Hình nền/ảnh" true);
      ("button_text",
       mkFieldRule "text" (Some "Text nút") false None None None None None
         (Some (VStr "Đặt ngay")) None);
      ("form_schema",
       array_field "Cấu hình fields của Form" true None
         (Some
            [ ("field_name", field "text" "Tên field (DB)" true);
              ("field_type",
               mkFieldRule "select" (Some "Loại field") true None None None
                 None (Some ["text"; "select"; "date"; "time"]) None None);
              ("label", field "text" "Label hiển thị" true);
              ("required",
               mkFieldRule "boolean" (Some "Bắt buộc?") false None None None
                 None None (Some (VBool false)) None);
              ("options", array_field "Options (cho select)" false None None)
            ])) ];
  defaultData :=
    VObj [ ("title", VStr "Đặt lịch ngay");
           ("image_url", VStr EmptyString);
           ("button_text", VStr "Đặt ngay");
           ("form_schema", VArr []) ]
|}.

(** The own properties of [BLOCK_SCHEMAS], in the order of the literal. *)
Definition BLOCK_SCHEMAS : list (string * BlockSchema) :=
  [ (BLOCK_TYPES.INTRO, intro_schema);
    (BLOCK_TYPES.DEFINITION, definition_schema);
    (BLOCK_TYPES.PRICING, pricing_schema);
    (BLOCK_TYPES.TASK_TAB, task_tab_schema);
    (BLOCK_TYPES.PROCESS, process_schema);
    (BLOCK_TYPES.BOOKING, booking_schema) ].

(** The properties every object literal inherits from [Object.prototype]. *)
Definition Object_prototype_keys : list string :=
  [ "constructor"; "__defineGetter__"; "__defineSetter__"; "hasOwnProperty";
    "__lookupGetter__"; "__lookupSetter__"; "isPrototypeOf";
    "propertyIsEnumerable"; "toString"; "valueOf"; "__proto__";
    "toLocaleString" ].

(** No name in [names] is inherited from [Object.prototype]. *)
Definition plain_names (names : list string) : bool :=
  forallb (fun k => negb (existsb (String.eqb k) Object_prototype_keys)) names.

(** The field names of a schema and the sub-field names of its item schemas. *)
Definition names_of (schema : BlockSchema) : list string :=
  flat_map
    (fun entry : string * FieldRule =>
       fst entry
       :: match itemSchema (snd entry) with
          | Some sch => map fst sch
          | None => []
          end)
    (fields schema).

(** What [BLOCK_SCHEMAS[blockType]] evaluates to: a schema of the catalog, a
    member of [Object.prototype] (a function, or the prototype itself for
    [__proto__]: truthy, and without a [fields] property), or [undefined]. *)
Inductive property : Type :=
| Own (schema : BlockSchema)
| Inherited
| Absent.

Definition BLOCK_SCHEMAS_get (blockType : string) : property :=
  match assoc blockType BLOCK_SCHEMAS with
  | Some schema => Own schema
  | None =>
      if existsb (String.eqb blockType) Object_prototype_keys
      then Inherited
      else Absent
  end.

(** The errors [validateBlock] can push, with the data each template
    interpolates. *)
Inductive event : Type :=
| UnknownBlockType (blockType : string)
| RequiredField (fieldName label : string)
| NotArray (fieldName : string)
| TooFewItems (fieldName : string) (minItems : Z)
| TooManyItems (fieldName : string) (maxItems : Z)
| RequiredSubField (fieldName : string) (index : nat) (subFieldName : string)
    (label : option string)
| BelowMin (fieldName : string) (index : nat) (subFieldName : string) (min : Z).

(** [${subFieldConfig.label}] *)
Definition show_label (l : option string) : string :=
  match l with
  | Some s => s
  | None => "undefined"
  end.

(** The message of each error, as the template literals build it. *)
Definition render (e : event) : string :=
  match e with
  | UnknownBlockType blockType =>
      "Block type " ++ dq ++ blockType ++ dq ++ " không tồn tại"
  | RequiredField fieldName l =>
      "Field " ++ dq ++ fieldName ++ dq ++ " (" ++ l ++ ") là bắt buộc"
  | NotArray fieldName =>
      "Field " ++ dq ++ fieldName ++ dq ++ " phải là danh sách (array)"
  | TooFewItems fieldName m =>
      "Field " ++ dq ++ fieldName ++ dq ++ " cần tối thiểu " ++ show_Z m
      ++ " phần tử"
  | TooManyItems fieldName m =>
      "Field " ++ dq ++ fieldName ++ dq ++ " chỉ được tối đa " ++ show_Z m
      ++ " phần tử"
  | RequiredSubField fieldName index subFieldName l =>
      fieldName ++ "[" ++ show_nat index ++ "]." ++ subFieldName ++ " ("
      ++ show_label l ++ ") là bắt buộc"
  | BelowMin fieldName index subFieldName m =>
      fieldName ++ "[" ++ show_nat index ++ "]." ++ subFieldName
      ++ " phải lớn hơn hoặc bằng " ++ show_Z m
  end.

(** [value === undefined || value === null || value === ''] *)
Definition isEmpty (v : value) : bool :=
  is_undefined v || is_null v || is_empty_string v.

(** [fieldConfig.label || fieldName] *)
Definition label_or_name (fieldConfig : FieldRule) (fieldName : string) : string :=
  match label fieldConfig with
  | Some l => if String.eqb l EmptyString then fieldName else l
  | None => fieldName
  end.

(** A configured [minItems]/[maxItems] is one that is truthy. *)
Definition configured (bound : option Z) : option Z :=
  match bound with
  | Some m => if m =? 0 then None else Some m
  | None => None
  end.

(** The two cardinality tests on a sequence of [len] elements. *)
Definition checkMinItems (fieldName : string) (fieldConfig : FieldRule)
  (len : nat) : list event :=
  match configured (minItems fieldConfig) with
  | Some m => if Z.of_nat len <? m then [TooFewItems fieldName m] else []
  | None => []
  end.

Definition checkMaxItems (fieldName : string) (fieldConfig : FieldRule)
  (len : nat) : list event :=
  match configured (maxItems fieldConfig) with
  | Some m => if Z.of_nat len >? m then [TooManyItems fieldName m] else []
  | None => []
  end.

(** The required test of one sub-field of one item. *)
Definition checkSubRequired (fieldName : string) (index : nat)
  (subFieldName : string) (subFieldConfig : FieldRule) (subValue : value)
  : list event :=
  if required subFieldConfig then
    let isSubEmpty := isEmpty subValue in
    if isSubEmpty && ne_zero subValue && ne_false subValue
    then [RequiredSubField fieldName index subFieldName (label subFieldConfig)]
    else []
  else [].

(** The minimum test of one sub-field of one item. *)
Definition checkSubMin (fieldName : string) (index : nat)
  (subFieldName : string) (subFieldConfig : FieldRule) (subValue : value)
  : list event :=
  if String.eqb (type subFieldConfig) "number" then
    match subValue, min subFieldConfig with
    | VNum n, Some m =>
        if num_lt_int n m then [BelowMin fieldName index subFieldName m] else []
    | _, _ => []
    end
  else [].

(** The inner loop: every sub-field of [itemSchema] against one item. *)
Definition checkItem (fieldName : string)
  (itemSchema : list (string * FieldRule)) (item : value) (index : nat)
  : outcome (list event) :=
  forEach
    (fun entry : string * FieldRule =>
       let '(subFieldName, subFieldConfig) := entry in
       subValue <- get item subFieldName ;;
       Ok (checkSubRequired fieldName index subFieldName subFieldConfig subValue
           ++ checkSubMin fieldName index subFieldName subFieldConfig subValue)%list)
    itemSchema.

(** The item-level pass over a sequence, when [itemSchema] is there. *)
Definition checkItems (fieldName : string) (fieldConfig : FieldRule)
  (items : list value) : outcome (list event) :=
  match itemSchema fieldConfig with
  | Some sch => forEachFrom (checkItem fieldName sch) 0 items
  | None => Ok []
  end.

(** What is done with a value that passed the required test, when the rule
    is of type [array]. *)
Definition checkArray (fieldName : string) (fieldConfig : FieldRule)
  (value : value) : outcome (list event) :=
  if truthy value && negb (isArray value) then Ok [NotArray fieldName]
  else
    match value with
    | VArr items =>
        es <- checkItems fieldName fieldConfig items ;;
        Ok (checkMinItems fieldName fieldConfig (List.length items)
            ++ checkMaxItems fieldName fieldConfig (List.length items)
            ++ es)%list
    | _ => Ok []
    end.

(** The body of the loop over [Object.entries(schema.fields)]. *)
Definition checkField (blockData : value) (entry : string * FieldRule)
  : outcome (list event) :=
  let '(fieldName, fieldConfig) := entry in
  value <- get blockData fieldName ;;
  if required fieldConfig
     && (isEmpty value && ne_zero value && ne_false value)
  then Ok [RequiredField fieldName (label_or_name fieldConfig fieldName)]
  else if String.eqb (type fieldConfig) "array"
  then checkArray fieldName fieldConfig value
  else Ok [].

Definition checkFields (fields : list (string * FieldRule)) (blockData : value)
  : outcome (list event) :=
  forEach (checkField blockData) fields.

Record ValidationResult : Type := mkResult {
  valid : bool;
  errors : list string
}.

(** [blockType] is the property key the lookup uses, a string. *)
Definition validateBlock (blockType : string) (blockData : value)
  : outcome ValidationResult :=
  match BLOCK_SCHEMAS_get blockType with
  | Absent =>
      Ok {| valid := false; errors := [render (UnknownBlockType blockType)] |}
  | Inherited => Throw TypeError
  | Own schema =>
      es <- checkFields (fields schema) blockData ;;
      let errors := map render es in
      Ok {| valid := Nat.eqb (List.length errors) 0; errors := errors |}
  end.


(** *** Specification of the emitted errors

    [justified fields blockData e]: the condition under which the loop over
    [fields] may emit the error [e] for the payload [blockData]. *)
Inductive justified (fields : list (string * FieldRule)) (blockData : value)
  : event -> Prop :=
| by_required fieldName fieldConfig v :
    In (fieldName, fieldConfig) fields ->
    get blockData fieldName = Ok v ->
    required fieldConfig = true ->
    isEmpty v = true ->
    justified fields blockData
      (RequiredField fieldName (label_or_name fieldConfig fieldName))
| by_shape fieldName fieldConfig v :
    In (fieldName, fieldConfig) fields ->
    get blockData fieldName = Ok v ->
    type fieldConfig = "array" ->
    truthy v = true ->
    isArray v = false ->
    justified fields blockData (NotArray fieldName)
| by_min_items fieldName fieldConfig items m :
    In (fieldName, fieldConfig) fields ->
    get blockData fieldName = Ok (VArr items) ->
    type fieldConfig = "array" ->
    configured (minItems fieldConfig) = Some m ->
    Z.of_nat (List.length items) < m ->
    justified fields blockData (TooFewItems fieldName m)
| by_max_items fieldName fieldConfig items m :
    In (fieldName, fieldConfig) fields ->
    get blockData fieldName = Ok (VArr items) ->
    type fieldConfig = "array" ->
    configured (maxItems fieldConfig) = Some m ->
    Z.of_nat (List.length items) > m ->
    justified fields blockData (TooManyItems fieldName m)
| by_sub_required fieldName fieldConfig items sch index item
    subFieldName subFieldConfig subValue :
    In (fieldName, fieldConfig) fields ->
    get blockData fieldName = Ok (VArr items) ->
    type fieldConfig = "array" ->
    itemSchema fieldConfig = Some sch ->
    nth_error items index = Some item ->
    In (subFieldName, subFieldConfig) sch ->
    get item subFieldName = Ok subValue ->
    required subFieldConfig = true ->
    isEmpty subValue = true ->
    justified fields blockData
      (RequiredSubField fieldName index subFieldName (label subFieldConfig))
| by_sub_min fieldName fieldConfig items sch index item
    subFieldName subFieldConfig n m :
    In (fieldName, fieldConfig) fields ->
    get blockData fieldName = Ok (VArr items) ->
    type fieldConfig = "array" ->
    itemSchema fieldConfig = Some sch ->
    nth_error items index = Some item ->
    In (subFieldName, subFieldConfig) sch ->
    get item subFieldName = Ok (VNum n) ->
    type subFieldConfig = "number" ->
    min subFieldConfig = Some m ->
    num_lt_int n m = true ->
    justified fields blockData (BelowMin fieldName index subFieldName m).

(** The number [0] or the boolean [false]. *)
Definition zero_or_false (v : value) : Prop :=
  (exists n, v = VNum n /\ num_is_zero n = true) \/ v = VBool false.

(** A payload whose properties can be read. *)
Definition readable (v : value) : Prop := v <> VUndefined /\ v <> VNull.

(** The items the inner loop reads a property of are readable: for every
    sequence held by an [array] field with a non-empty [itemSchema]. *)
Definition items_readable (fields : list (string * FieldRule))
  (blockData : value) : Prop :=
  forall fieldName fieldConfig sch items item,
    In (fieldName, fieldConfig) fields ->
    type fieldConfig = "array" ->
    itemSchema fieldConfig = Some sch ->
    sch <> [] ->
    get blockData fieldName = Ok (VArr items) ->
    In item items ->
    readable item.

(** *** Payloads used in the examples *)

(** A process block whose first step has [number: 0] and a [false] title. *)
Definition falsy_step_block : value :=
  VObj [ ("title", VNum (Fin 0));
         ("steps",
          VArr [ VObj [ ("number", VNum (Fin 0));
                        ("step_title", VBool false);
                        ("description", VStr "d");
                        ("image_url", VStr "u") ] ]) ].

(** A pricing block with a negative price, and a price given as text. *)
Definition priced_block : value :=
  VObj [ ("service_title", VStr "X");
         ("subservices",
          VArr [ VObj [ ("id", VStr "a"); ("subservice_title", VStr "A");
                        ("price", VNum (Fin (-5))) ];
                 VObj [ ("id", VStr "b"); ("subservice_title", VStr "B");
                        ("price", VStr "-5") ] ]) ].

(** An intro block whose title is a Number and whose image is a boolean. *)
Definition odd_intro_block : value :=
  VObj [ ("title", VNum (Fin 42)); ("banner_image_url", VBool true) ].

(** A process block with no step. *)
Definition no_step_block : value :=
  VObj [ ("title", VStr "T"); ("steps", VArr []) ].

(** The payload of the nested-array example: one package without [price]. *)
Definition unpriced_block : value :=
  VObj [ ("service_title", VStr "X");
         ("subservices",
          VArr [ VObj [ ("id", VStr "a"); ("subservice_title", VStr "A") ] ]) ].

(** *** What a valid result stands for *)

(** An item passes the sub-field rules of [sch]: a required sub-value is not
    empty, and a Number under a number rule is not below its [min]. *)
Definition item_ok (sch : list (string * FieldRule)) (item : value) : Prop :=
  forall subFieldName subFieldConfig subValue,
    In (subFieldName, subFieldConfig) sch ->
    get item subFieldName = Ok subValue ->
    (required subFieldConfig = true -> isEmpty subValue = false) /\
    (type subFieldConfig = "number" ->
     forall n m, subValue = VNum n -> min subFieldConfig = Some m ->
                 num_lt_int n m = false).

(** A value passes a field rule: not empty when required; under a rule of
    type array, a truthy value is a sequence, and a sequence respects the
    configured bounds and its items pass the item schema. *)
Definition field_ok (fieldConfig : FieldRule) (v : value) : Prop :=
  (required fieldConfig = true -> isEmpty v = false) /\
  (type fieldConfig = "array" ->
   (truthy v = true -> isArray v = true) /\
   (forall items, v = VArr items ->
      (forall m, configured (minItems fieldConfig) = Some m ->
                 m <= Z.of_nat (List.length items)) /\
      (forall m, configured (maxItems fieldConfig) = Some m ->
                 Z.of_nat (List.length items) <= m) /\
      (forall sch item, itemSchema fieldConfig = Some sch ->
                        In item items -> item_ok sch item))).

(** The most errors one field can give for a payload: one, or for a
    sequence under a rule of type array the two cardinality errors and one
    error per item and sub-field. *)
Definition error_budget (blockData : value) (entry : string * FieldRule) : nat :=
  match get blockData (fst entry) with
  | Ok (VArr items) =>
      if String.eqb (type (snd entry)) "array"
      then 2 + List.length items
               * match itemSchema (snd entry) with
                 | Some sch => List.length sch
                 | None => 0
                 end
      else 1
  | _ => 1
  end.

(** The unpriced payload with two properties no schema names. *)
Definition unpriced_block_with_extras : value :=
  VObj [ ("service_title", VStr "X");
         ("colour", VStr "red");
         ("subservices",
          VArr [ VObj [ ("id", VStr "a"); ("subservice_title", VStr "A") ] ]);
         ("order", VNum (Fin 3)) ].

(** *** Validation against a given schema *)

(** What [validateBlock] does once the lookup has found [schema]: the loop
    over the fields and the result (the lines after the unknown-type
    test). *)
Definition validateWith (schema : BlockSchema) (blockData : value)
  : outcome ValidationResult :=
  es <- checkFields (fields schema) blockData ;;
  let errors := map render es in
  Ok {| valid := Nat.eqb (List.length errors) 0; errors := errors |}.

(** The top-level field an error is reported for. *)
Definition field_of (e : event) : option string :=
  match e with
  | UnknownBlockType _ => None
  | RequiredField fieldName _ => Some fieldName
  | NotArray fieldName => Some fieldName
  | TooFewItems fieldName _ => Some fieldName
  | TooManyItems fieldName _ => Some fieldName
  | RequiredSubField fieldName _ _ _ => Some fieldName
  | BelowMin fieldName _ _ _ => Some fieldName
  end.

(** The items of every sequence the inner loop goes through are objects:
    values whose property reads [get] models (an object parsed from JSON has
    [Object.prototype] as its prototype, which holds none of the names of a
    schema with [plain_names]). *)
Definition items_objects (fields : list (string * FieldRule))
  (blockData : value) : Prop :=
  forall fieldName fieldConfig sch items item,
    In (fieldName, fieldConfig) fields ->
    type fieldConfig = "array" ->
    itemSchema fieldConfig = Some sch ->
    get blockData fieldName = Ok (VArr items) ->
    In item items ->
    exists props, item = VObj props.

(** A schema outside the catalog: a list of two to five photos. *)
Definition photos_rule : FieldRule :=
  mkFieldRule "array" (Some "Photos") true None None (Some 2) (Some 5) None None
    (Some [ ("url", field "text" "URL" true);
            ("width", number_field "Width" true 1) ]).

Definition gallery_schema : BlockSchema := {|
  schema_type := "gallery";
  name := "Gallery";
  description := "Photos";
  fields := [ ("photos", photos_rule) ];
  defaultData := VObj [ ("photos", VArr []) ]
|}.

(** One photo only, without address and of width 0. *)
Definition gallery_block : value :=
  VObj [ ("photos", VArr [ VObj [ ("url", VStr EmptyString);
                                  ("width", VNum (Fin 0)) ] ]) ].

Definition gallery_null_block : value := VObj [ ("photos", VArr [VNull]) ].

(** A schema whose sequence is bounded by [maxItems: 0]. *)
Definition tags_rule : FieldRule :=
  mkFieldRule "array" (Some "Tags") false None None None (Some 0) None None None.

Definition tags_schema : BlockSchema := {|
  schema_type := "tags";
  name := "Tags";
  description := "No tag allowed";
  fields := [ ("tags", tags_rule) ];
  defaultData := VObj [ ("tags", VArr []) ]
|}.

Definition tags_block : value := VObj [ ("tags", VArr [VStr "a"]) ].

(** A schema with top-level fields of type number, select and boolean. *)
Definition survey_schema : BlockSchema := {|
  schema_type := "survey";
  name := "Survey";
  description := "Three answers";
  fields :=
    [ ("rating",
       mkFieldRule "number" (Some "Rating") true (Some 1) (Some 5) None None
         None None None);
      ("colour",
       mkFieldRule "select" (Some "Colour") true None None None None
         (Some ["red"; "green"]) None None);
      ("agree", field "boolean" "Agree" true) ];
  defaultData := VObj []
|}.

(** A rating above [max], a colour that is no option, a text for a boolean. *)
Definition survey_block : value :=
  VObj [ ("rating", VNum (Fin 99)); ("colour", VStr "bogus");
         ("agree", VStr "yes") ].

End BlockSchemas.

(** ** The booking request validator ([src/validators/bookingValidator.js]) *)

Module BookingValidator.
Import JS.

(** A Number that is an integer or NaN ([None]): time values, the results
    of [parseInt]. *)
Definition num : Type := option Z.

Definition nadd (a b : num) : num :=
  match a, b with
  | Some x, Some y => Some (x + y)
  | _, _ => None
  end.

Definition nmul (a b : num) : num :=
  match a, b with
  | Some x, Some y => Some (x * y)
  | _, _ => None
  end.

(** [a < b], [a > b], [a >= b]: false when an operand is NaN. *)
Definition nlt (a b : num) : bool :=
  match a, b with
  | Some x, Some y => x <? y
  | _, _ => false
  end.

Definition ngt (a b : num) : bool := nlt b a.

Definition nge (a b : num) : bool :=
  match a, b with
  | Some x, Some y => y <=? x
  | _, _ => false
  end.

Definition isNaN (a : num) : bool :=
  match a with
  | Some _ => false
  | None => true
  end.

(** [${n}] *)
Definition show_num (a : num) : string :=
  match a with
  | Some z => show_Z z
  | None => "NaN"
  end.

(** The largest time value of a Date, and [new Date(t)] for a Number [t]:
    the time value is NaN outside +-8.64e15 ms. *)
Definition MAX_TIME : Z := 8640000000000000.

Definition new_Date (t : num) : num :=
  match t with
  | Some z => if Z.abs z <=? MAX_TIME then Some z else None
  | None => None
  end.

Definition byte (c : ascii) : Z := Z.of_N (N_of_ascii c).

(** White space that [parseInt] skips (StrWhiteSpaceChar), in UTF-8. *)
Definition ws1 (a : ascii) : bool :=
  let x := byte a in
  ((9 <=? x) && (x <=? 13)) || (x =? 32).

Definition ws2 (a b : ascii) : bool :=
  (byte a =? 194) && (byte b =? 160).

Definition ws3 (a b c : ascii) : bool :=
  let x := byte a in
  let y := byte b in
  let z := byte c in
  ((x =? 225) && (y =? 154) && (z =? 128))
  || ((x =? 226) && (y =? 128)
      && (((128 <=? z) && (z <=? 138)) || (z =? 168) || (z =? 169) || (z =? 175)))
  || ((x =? 226) && (y =? 129) && (z =? 159))
  || ((x =? 227) && (y =? 128) && (z =? 128))
  || ((x =? 239) && (y =? 187) && (z =? 191)).

Fixpoint trimStart (s : string) : string :=
  match s with
  | String a rest =>
      if ws1 a then trimStart rest
      else
        match rest with
        | String b rest2 =>
            if ws2 a b then trimStart rest2
            else
              match rest2 with
              | String c rest3 => if ws3 a b c then trimStart rest3 else s
              | EmptyString => s
              end
        | EmptyString => s
        end
  | EmptyString => s
  end.

(** Value of a digit in radix up to 36. *)
Definition digit_value (c : ascii) : option Z :=
  let x := byte c in
  if (48 <=? x) && (x <=? 57) then Some (x - 48)
  else if (97 <=? x) && (x <=? 122) then Some (x - 87)
  else if (65 <=? x) && (x <=? 90) then Some (x - 55)
  else None.

(** The longest prefix of radix-[R] digits, as an integer; [acc] is the
    value read so far ([None]: no digit yet). *)
Fixpoint digits (R : Z) (s : string) (acc : num) : num :=
  match s with
  | EmptyString => acc
  | String c rest =>
      match digit_value c with
      | Some d =>
          if d <? R
          then digits R rest (Some (match acc with
                                    | Some a => a * R + d
                                    | None => d
                                    end))
          else acc
      | None => acc
      end
  end.

(** The integers up to [2^53] in absolute value: each of them is a Number,
    and so is every partial value of its decimal digits, so that arithmetic
    on them is exact. *)
Definition representable (z : Z) : Prop := Z.abs z <= 9007199254740992.

(** [parseInt(s)] without a radix: leading white space, a sign, an optional
    [0x]/[0X] prefix, then digits; NaN when there is no digit.  The result
    here is the integer the digits denote; the one of the code is the Number
    nearest to it, which is that integer when it is [representable]. *)
Definition parseInt (s : string) : num :=
  let s1 := trimStart s in
  let '(sign, s2) :=
    match s1 with
    | String "-" r => (-1, r)
    | String "+" r => (1, r)
    | _ => (1, s1)
    end in
  let '(R, s3) :=
    match s2 with
    | String "0" (String "x" r) => (16, r)
    | String "0" (String "X" r) => (16, r)
    | _ => (10, s2)
    end in
  match digits R s3 None with
  | Some n => Some (sign * n)
  | None => None
  end.

(** [s.split(':')[0]]: what stands before the first colon. *)
Fixpoint before_colon (s : string) : string :=
  match s with
  | EmptyString => EmptyString
  | String c rest =>
      if Ascii.eqb c ":" then EmptyString else String c (before_colon rest)
  end.

(** [process.env]: the four variables the validator reads. *)
Record Env : Type := mkEnv {
  BUFFER_MINUTES : option string;
  BOOKING_ADVANCE_DAYS : option string;
  WORK_START_HOUR : option string;
  WORK_END_HOUR : option string
}.

(** [parseInt(process.env.X || dflt)] *)
Definition env_int (v : option string) (dflt : Z) : num :=
  match v with
  | Some s => if String.eqb s EmptyString then Some dflt else parseInt s
  | None => Some dflt
  end.

(** [req.body.booking_data], with the two strings the client submits: each
    is there or not.  A body that holds another JSON value in their place (a
    number, a boolean, an array) is a [Submission], below. *)
Record BookingData : Type := mkBookingData {
  booking_date : option string;
  booking_time : option string
}.

Record Body : Type := mkBody {
  booking_data : option BookingData
}.

(** [!s] for a string that may be missing. *)
Definition missing (s : option string) : bool :=
  match s with
  | Some x => String.eqb x EmptyString
  | None => true
  end.

Definition text (s : option string) : string :=
  match s with
  | Some x => x
  | None => "undefined"
  end.

(** What the middleware does: answer with a JSON body, or set
    [req.body.start_time] and call [next()]. *)
Inductive response : Type :=
| Json (status : Z) (success : bool) (message : string)
| Next (start_time : string).

Definition msgMissing : string :=
  "Thiếu thông tin ngày (booking_date) hoặc giờ (booking_time) trong booking_data.".
Definition msgInvalidTime : string := "Định dạng thời gian không hợp lệ.".
Definition msgTooSoon (bufferMinutes : num) : string :=
  "Vui lòng đặt lịch trước ít nhất " ++ show_num bufferMinutes
  ++ " phút so với hiện tại.".
Definition msgTooFar (advanceDays : num) : string :=
  "Chỉ được đặt lịch trong vòng " ++ show_num advanceDays ++ " ngày tới.".
Definition msgOutsideHours (workStartHour workEndHour : num) : string :=
  "Dịch vụ chỉ hoạt động từ " ++ show_num workStartHour ++ ":00 đến "
  ++ show_num workEndHour ++ ":00.".
Definition msgSystem : string := "Lỗi validation hệ thống.".

(** The composed ISO string with the fixed +07:00 offset. *)
Definition timeString (date time : string) : string :=
  date ++ "T" ++ time ++ ":00+07:00".

(** [new Date(now.getTime() + BUFFER_MINUTES * 60000)] *)
Definition minBookingTime (env : Env) (now : Z) : num :=
  let BUFFER_MINUTES := env_int (BUFFER_MINUTES env) 30 in
  new_Date (nadd (Some now) (nmul BUFFER_MINUTES (Some 60000))).

(** [new Date(now.getTime() + BOOKING_ADVANCE_DAYS * 24 * 60 * 60 * 1000)] *)
Definition maxBookingTime (env : Env) (now : Z) : num :=
  let BOOKING_ADVANCE_DAYS := env_int (BOOKING_ADVANCE_DAYS env) 7 in
  new_Date
    (nadd (Some now)
       (nmul (nmul (nmul (nmul BOOKING_ADVANCE_DAYS (Some 24)) (Some 60))
                (Some 60)) (Some 1000))).

(** A value submitted as [booking_date] or [booking_time]. *)
Inductive submitted : Type :=
| Falsy
    (** no value, [null], [false] or [0] *)
| Text (s : string)
    (** a string, the empty one included *)
| Other (shown : option string).
    (** a truthy value that is no string (a number, [true], an array, an
        object), with the text its string conversion gives; [None] when the
        conversion throws (an object whose own [toString] is not a
        function) *)

Record Submission : Type := mkSubmission {
  date_value : submitted;
  time_value : submitted
}.

(** [!v] *)
Definition falsy (v : submitted) : bool :=
  match v with
  | Falsy => true
  | Text s => String.eqb s EmptyString
  | Other _ => false
  end.

Definition isString (v : submitted) : bool :=
  match v with
  | Text _ => true
  | _ => false
  end.

(** The text of [v] in the template literal (never asked of a falsy
    value: the function has answered before). *)
Definition shown (v : submitted) : option string :=
  match v with
  | Falsy => None
  | Text s => Some s
  | Other t => t
  end.

(** A body whose fields are strings or missing, as a parsed body. *)
Definition submitted_of (s : option string) : submitted :=
  match s with
  | Some x => Text x
  | None => Falsy
  end.

Definition parsed (body : option Body) : option (option Submission) :=
  match body with
  | None => None
  | Some b =>
      Some
        match booking_data b with
        | None => None
        | Some bd =>
            Some {| date_value := submitted_of (booking_date bd);
                    time_value := submitted_of (booking_time bd) |}
        end
  end.

(** The body of a request that carries both strings. *)
Definition request (date time : string) : option Body :=
  Some {| booking_data :=
            Some {| booking_date := Some date; booking_time := Some time |} |}.

Section Validator.

(** [new Date(s).getTime()]: the time value of the parsed string, NaN
    ([None]) for an invalid date. *)
Variable Date_parse : string -> num.

(** The checks once the two strings are there; [now] is the time value of
    [new Date()]. *)
Definition checkWindow (env : Env) (now : Z) (date time : string) : response :=
  let timeString := timeString date time in
  let bookingDate := Date_parse timeString in
  if isNaN bookingDate then Json 400 false msgInvalidTime
  else
    let BUFFER_MINUTES := env_int (BUFFER_MINUTES env) 30 in
    let BOOKING_ADVANCE_DAYS := env_int (BOOKING_ADVANCE_DAYS env) 7 in
    let WORK_START_HOUR := env_int (WORK_START_HOUR env) 7 in
    let WORK_END_HOUR := env_int (WORK_END_HOUR env) 19 in
    if nlt bookingDate (minBookingTime env now)
    then Json 400 false (msgTooSoon BUFFER_MINUTES)
    else
      if ngt bookingDate (maxBookingTime env now)
      then Json 400 false (msgTooFar BOOKING_ADVANCE_DAYS)
      else
        let hourString := before_colon time in
        let hour := parseInt hourString in
        if nlt hour WORK_START_HOUR || nge hour WORK_END_HOUR
        then Json 400 false (msgOutsideHours WORK_START_HOUR WORK_END_HOUR)
        else Next timeString.

(** [req.body] is [None] when the request has no parsed body: the
    destructuring throws and the [catch] answers 500. *)
Definition validateBookingRequest (env : Env) (now : Z) (body : option Body)
  : response :=
  match body with
  | None => Json 500 false msgSystem
  | Some b =>
      match booking_data b with
      | None => Json 400 false msgMissing
      | Some bd =>
          if missing (booking_date bd) || missing (booking_time bd)
          then Json 400 false msgMissing
          else checkWindow env now (text (booking_date bd)) (text (booking_time bd))
      end
  end.

(** *** The same function on any parsed JSON body

    [BookingData] holds the two fields as strings.  A JSON body can hold any
    value there; what the function does with it depends on three things
    only: whether the value is falsy, whether it is a string, and the text
    the template literal turns it into. *)

(** The checks, for the texts of the two values; [isString] tells whether
    [booking_time] is a string: any other value has no [split] method, the
    call throws and the [catch] answers 500. *)
Definition checkSubmitted (env : Env) (now : Z) (date time : string)
  (isString : bool) : response :=
  let timeString := timeString date time in
  let bookingDate := Date_parse timeString in
  if isNaN bookingDate then Json 400 false msgInvalidTime
  else
    let BUFFER_MINUTES := env_int (BUFFER_MINUTES env) 30 in
    let BOOKING_ADVANCE_DAYS := env_int (BOOKING_ADVANCE_DAYS env) 7 in
    let WORK_START_HOUR := env_int (WORK_START_HOUR env) 7 in
    let WORK_END_HOUR := env_int (WORK_END_HOUR env) 19 in
    if nlt bookingDate (minBookingTime env now)
    then Json 400 false (msgTooSoon BUFFER_MINUTES)
    else
      if ngt bookingDate (maxBookingTime env now)
      then Json 400 false (msgTooFar BOOKING_ADVANCE_DAYS)
      else
        if isString then
          let hourString := before_colon time in
          let hour := parseInt hourString in
          if nlt hour WORK_START_HOUR || nge hour WORK_END_HOUR
          then Json 400 false (msgOutsideHours WORK_START_HOUR WORK_END_HOUR)
          else Next timeString
        else Json 500 false msgSystem.

(** The date parses and is neither too soon nor too far: the three tests
    before the one of the hour are passed. *)
Definition in_window (env : Env) (now : Z) (date time : string) : bool :=
  let bookingDate := Date_parse (timeString date time) in
  negb (isNaN bookingDate)
  && negb (nlt bookingDate (minBookingTime env now))
  && negb (ngt bookingDate (maxBookingTime env now)).

(** [req.body]: [None] when the request has no parsed body; its
    [booking_data] is [None] when it is falsy, and holds two falsy fields
    when it is a truthy value that is not an object. *)
Definition validateSubmitted (env : Env) (now : Z)
  (body : option (option Submission)) : response :=
  match body with
  | None => Json 500 false msgSystem
  | Some None => Json 400 false msgMissing
  | Some (Some sub) =>
      if falsy (date_value sub) || falsy (time_value sub)
      then Json 400 false msgMissing
      else
        match shown (date_value sub), shown (time_value sub) with
        | Some date, Some time =>
            checkSubmitted env now date time (isString (time_value sub))
        | _, _ => Json 500 false msgSystem
        end
  end.

End Validator.

(** *** A date parser for the composed layout

    The ECMAScript date-time format, restricted to the layout the validator
    composes, [YYYY-MM-DDTHH:mm:ss+HH:mm] (or [-HH:mm]), with calendar-valid
    fields.  The theorems below hold for any parser; this one serves to run
    the validator on concrete requests.  An engine accepts more than this
    layout (a day past the end of a short month, hour 24, a time without
    seconds): the examples use none of these. *)

Definition dec (c : ascii) : option Z :=
  let x := byte c in
  if (48 <=? x) && (x <=? 57) then Some (x - 48) else None.

Definition dec2 (a b : ascii) : option Z :=
  match dec a, dec b with
  | Some x, Some y => Some (10 * x + y)
  | _, _ => None
  end.

Definition dec4 (a b c d : ascii) : option Z :=
  match dec2 a b, dec2 c d with
  | Some x, Some y => Some (100 * x + y)
  | _, _ => None
  end.

Definition leap (y : Z) : bool :=
  ((y mod 4 =? 0) && negb (y mod 100 =? 0)) || (y mod 400 =? 0).

Definition days_in_month (y m : Z) : Z :=
  if m =? 2 then (if leap y then 29 else 28)
  else if (m =? 4) || (m =? 6) || (m =? 9) || (m =? 11) then 30
  else 31.

(** Days from 1970-01-01 to the civil date [y-m-d]. *)
Definition days_from_civil (y m d : Z) : Z :=
  let y' := if m <=? 2 then y - 1 else y in
  let era := y' / 400 in
  let yoe := y' - era * 400 in
  let mp := (m + 9) mod 12 in
  let doy := (153 * mp + 2) / 5 + d - 1 in
  let doe := yoe * 365 + yoe / 4 - yoe / 100 + doy in
  era * 146097 + doe - 719468.

Definition iso_fields (y mo d h mi sec sign oh om : Z) : num :=
  if (1 <=? mo) && (mo <=? 12) && (1 <=? d) && (d <=? days_in_month y mo)
     && (h <=? 23) && (mi <=? 59) && (sec <=? 59) && (oh <=? 23) && (om <=? 59)
  then
    let local :=
      (((days_from_civil y mo d * 24 + h) * 60 + mi) * 60 + sec) * 1000 in
    new_Date (Some (local - sign * (oh * 60 + om) * 60000))
  else None.

Definition iso_parse (s : string) : num :=
  match list_ascii_of_string s with
  | [y1; y2; y3; y4; s1; m1; m2; s2; d1; d2; t; h1; h2; s3; n1; n2; s4; c1; c2;
     sg; o1; o2; s5; p1; p2] =>
      if Ascii.eqb s1 "-" && Ascii.eqb s2 "-" && Ascii.eqb t "T"
         && Ascii.eqb s3 ":" && Ascii.eqb s4 ":" && Ascii.eqb s5 ":"
         && (Ascii.eqb sg "+" || Ascii.eqb sg "-")
      then
        match dec4 y1 y2 y3 y4, dec2 m1 m2, dec2 d1 d2, dec2 h1 h2,
              dec2 n1 n2, dec2 c1 c2, dec2 o1 o2, dec2 p1 p2 with
        | Some y, Some mo, Some d, Some h, Some mi, Some sec, Some oh, Some om =>
            iso_fields y mo d h mi sec (if Ascii.eqb sg "+" then 1 else -1) oh om
        | _, _, _, _, _, _, _, _ => None
        end
      else None
  | _ => None
  end.


(** The configuration without any variable set: 30 minutes, 7 days, 7 to 19. *)
Definition default_env : Env := mkEnv None None None None.

(** A configuration whose buffer is not a number. *)
Definition unreadable_buffer_env : Env := mkEnv (Some "soon") None None None.

End BookingValidator.

(** ** Properties of the block validator *)

Module BlockFacts.
Import JS BlockSchemas.

(** *** Loops *)

Lemma bind_Ok {A B : Type} (m : outcome A) (k : A -> outcome B) (b : B) :
  bind m k = Ok b -> exists a, m = Ok a /\ k a = Ok b.
Proof.
  destruct m as [a | e]; simpl; intros H.
  - exists a. split; [reflexivity | exact H].
  - discriminate H.
Qed.

Lemma forEach_In {A E : Type} (f : A -> outcome (list E)) (l : list A)
  (es : list E) (e : E) :
  forEach f l = Ok es -> In e es ->
  exists a es', In a l /\ f a = Ok es' /\ In e es'.
Proof.
  revert es. induction l as [| a rest IH]; simpl; intros es H Hin.
  - inversion H; subst. contradiction.
  - apply bind_Ok in H. destruct H as (es1 & Hf & H).
    apply bind_Ok in H. destruct H as (es2 & Hrest & H).
    inversion H; subst. apply in_app_or in Hin. destruct Hin as [Hin | Hin].
    + exists a, es1. auto.
    + destruct (IH _ Hrest Hin) as (a' & es' & Ha & Hfa & He).
      exists a', es'. auto.
Qed.

Lemma forEachFrom_In {A E : Type} (f : A -> nat -> outcome (list E))
  (l : list A) (i : nat) (es : list E) (e : E) :
  forEachFrom f i l = Ok es -> In e es ->
  exists k a es', nth_error l k = Some a /\ f a (i + k)%nat = Ok es' /\ In e es'.
Proof.
  revert i es. induction l as [| a rest IH]; simpl; intros i es H Hin.
  - inversion H; subst. contradiction.
  - apply bind_Ok in H. destruct H as (es1 & Hf & H).
    apply bind_Ok in H. destruct H as (es2 & Hrest & H).
    inversion H; subst. apply in_app_or in Hin. destruct Hin as [Hin | Hin].
    + exists 0%nat, a, es1. rewrite Nat.add_0_r. auto.
    + destruct (IH _ _ Hrest Hin) as (k & a' & es' & Ha & Hfa & He).
      exists (S k), a', es'. rewrite Nat.add_succ_r. auto.
Qed.

Lemma forEach_returns {A E : Type} (f : A -> outcome (list E)) (l : list A) :
  (forall a, In a l -> exists es, f a = Ok es) ->
  exists es, forEach f l = Ok es.
Proof.
  induction l as [| a rest IH]; simpl; intros H.
  - eexists. reflexivity.
  - destruct (H a (or_introl eq_refl)) as (es1 & ->).
    destruct IH as (es2 & ->); [intros; apply H; auto |].
    simpl. eexists. reflexivity.
Qed.

Lemma forEachFrom_returns {A E : Type} (f : A -> nat -> outcome (list E))
  (l : list A) (i : nat) :
  (forall a k, In a l -> exists es, f a k = Ok es) ->
  exists es, forEachFrom f i l = Ok es.
Proof.
  revert i. induction l as [| a rest IH]; simpl; intros i H.
  - eexists. reflexivity.
  - destruct (H a i (or_introl eq_refl)) as (es1 & ->).
    destruct (IH (S i)) as (es2 & ->); [intros; apply H; auto |].
    simpl. eexists. reflexivity.
Qed.

(** *** Reading properties *)

Lemma get_readable (v : value) (k : string) :
  readable v -> exists x, get v k = Ok x.
Proof.
  intros [Hu Hn]. destruct v; simpl; try (eexists; reflexivity);
    try congruence.
  destruct (assoc k props); eexists; reflexivity.
Qed.

Lemma zero_or_false_not_empty (v : value) :
  zero_or_false v -> isEmpty v = false.
Proof.
  intros [(n & -> & _) | ->]; reflexivity.
Qed.

(** *** Every emitted error is justified *)

Lemma checkItem_sound (fieldName : string) (sch : list (string * FieldRule))
  (item : value) (index : nat) (es : list event) (e : event) :
  checkItem fieldName sch item index = Ok es -> In e es ->
  exists subFieldName subFieldConfig subValue,
    In (subFieldName, subFieldConfig) sch /\
    get item subFieldName = Ok subValue /\
    In e (checkSubRequired fieldName index subFieldName subFieldConfig subValue
          ++ checkSubMin fieldName index subFieldName subFieldConfig subValue)%list.
Proof.
  unfold checkItem. intros H Hin.
  destruct (forEach_In _ _ _ _ H Hin) as ([s c] & es' & Hs & Hf & He).
  apply bind_Ok in Hf. destruct Hf as (sv & Hget & Hf).
  inversion Hf; subst. exists s, c, sv. auto.
Qed.

Lemma checkField_sound (fields : list (string * FieldRule)) (blockData : value)
  (fieldName : string) (fieldConfig : FieldRule) (es : list event) (e : event) :
  In (fieldName, fieldConfig) fields ->
  checkField blockData (fieldName, fieldConfig) = Ok es ->
  In e es ->
  justified fields blockData e.
Proof.
  intros Hf H Hin. unfold checkField in H.
  apply bind_Ok in H. destruct H as (v & Hget & H).
  destruct (required fieldConfig && (isEmpty v && ne_zero v && ne_false v))
    eqn:Hreq.
  - inversion H; subst. destruct Hin as [<- | []].
    apply andb_prop in Hreq. destruct Hreq as [Hr He].
    apply andb_prop in He. destruct He as [He _].
    apply andb_prop in He. destruct He as [He _].
    eapply by_required; eauto.
  - destruct (String.eqb (type fieldConfig) "array") eqn:Hty.
    2:{ inversion H; subst. contradiction. }
    apply String.eqb_eq in Hty. unfold checkArray in H.
    destruct (truthy v && negb (isArray v)) eqn:Hshape.
    + inversion H; subst. destruct Hin as [<- | []].
      apply andb_prop in Hshape. destruct Hshape as [Ht Ha].
      apply negb_true_iff in Ha. eapply by_shape; eauto.
    + destruct v; try (inversion H; subst; contradiction).
      apply bind_Ok in H. destruct H as (ies & Hitems & H).
      inversion H; subst. clear H.
      apply in_app_or in Hin. destruct Hin as [Hin | Hin].
      { unfold checkMinItems in Hin.
        destruct (configured (minItems fieldConfig)) as [m |] eqn:Hc;
          [| contradiction].
        destruct (Z.of_nat (List.length items) <? m) eqn:Hlt; [| contradiction].
        destruct Hin as [<- | []]. apply Z.ltb_lt in Hlt.
        eapply by_min_items; eauto. }
      apply in_app_or in Hin. destruct Hin as [Hin | Hin].
      { unfold checkMaxItems in Hin.
        destruct (configured (maxItems fieldConfig)) as [m |] eqn:Hc;
          [| contradiction].
        destruct (Z.of_nat (List.length items) >? m) eqn:Hgt; [| contradiction].
        destruct Hin as [<- | []]. apply Z.gtb_lt in Hgt.
        eapply by_max_items; eauto. lia. }
      unfold checkItems in Hitems.
      destruct (itemSchema fieldConfig) as [sch |] eqn:Hsch.
      2:{ inversion Hitems; subst. contradiction. }
      destruct (forEachFrom_In _ _ _ _ _ Hitems Hin)
        as (k & item & es' & Hnth & Hitem & He).
      simpl in Hitem.
      destruct (checkItem_sound _ _ _ _ _ _ Hitem He)
        as (s & c & sv & Hs & Hsv & Hev).
      apply in_app_or in Hev. destruct Hev as [Hev | Hev].
      { unfold checkSubRequired in Hev.
        destruct (required c) eqn:Hr; [| contradiction].
        destruct (isEmpty sv && ne_zero sv && ne_false sv) eqn:Hemp;
          [| contradiction].
        destruct Hev as [<- | []].
        apply andb_prop in Hemp. destruct Hemp as [Hemp _].
        apply andb_prop in Hemp. destruct Hemp as [Hemp _].
        eapply by_sub_required; eauto. }
      { unfold checkSubMin in Hev.
        destruct (String.eqb (type c) "number") eqn:Hnum; [| contradiction].
        apply String.eqb_eq in Hnum.
        destruct sv; try contradiction.
        destruct (min c) as [m |] eqn:Hm; [| contradiction].
        destruct (num_lt_int n m) eqn:Hlt; [| contradiction].
        destruct Hev as [<- | []].
        eapply by_sub_min; eauto. }
Qed.

Lemma checkFields_sound (fields : list (string * FieldRule)) (blockData : value)
  (es : list event) (e : event) :
  checkFields fields blockData = Ok es -> In e es ->
  justified fields blockData e.
Proof.
  unfold checkFields. intros H Hin.
  destruct (forEach_In _ _ _ _ H Hin) as ([f c] & es' & Hf & Hc & He).
  eapply checkField_sound; eauto.
Qed.

(** *** Every justified error is emitted *)

Lemma empty_not_zero_nor_false (v : value) :
  isEmpty v = true -> ne_zero v = true /\ ne_false v = true.
Proof. destruct v; simpl; auto; discriminate. Qed.

Lemma required_test (c : FieldRule) (v : value) :
  required c && (isEmpty v && ne_zero v && ne_false v) = required c && isEmpty v.
Proof.
  destruct (isEmpty v) eqn:He; simpl.
  - destruct (empty_not_zero_nor_false _ He) as [-> ->]. reflexivity.
  - reflexivity.
Qed.

Lemma forEach_incl {A E : Type} (f : A -> outcome (list E)) (l : list A)
  (es : list E) (a : A) :
  forEach f l = Ok es -> In a l ->
  exists es', f a = Ok es' /\ incl es' es.
Proof.
  revert es. induction l as [| b rest IH]; simpl; intros es H Hin.
  - contradiction.
  - apply bind_Ok in H. destruct H as (es1 & Hf & H).
    apply bind_Ok in H. destruct H as (es2 & Hrest & H).
    inversion H; subst. destruct Hin as [-> | Hin].
    + exists es1. split; [exact Hf | apply incl_appl, incl_refl].
    + destruct (IH _ Hrest Hin) as (es' & Hfa & Hi).
      exists es'. split; [exact Hfa | apply incl_appr, Hi].
Qed.

Lemma forEachFrom_incl {A E : Type} (f : A -> nat -> outcome (list E))
  (l : list A) (i k : nat) (es : list E) (a : A) :
  forEachFrom f i l = Ok es -> nth_error l k = Some a ->
  exists es', f a (i + k)%nat = Ok es' /\ incl es' es.
Proof.
  revert i k es. induction l as [| b rest IH]; simpl; intros i k es H Hnth.
  - destruct k; discriminate Hnth.
  - apply bind_Ok in H. destruct H as (es1 & Hf & H).
    apply bind_Ok in H. destruct H as (es2 & Hrest & H).
    inversion H; subst. destruct k as [| k]; simpl in Hnth.
    + inversion Hnth; subst. rewrite Nat.add_0_r.
      exists es1. split; [exact Hf | apply incl_appl, incl_refl].
    + destruct (IH _ _ _ Hrest Hnth) as (es' & Hfa & Hi).
      rewrite Nat.add_succ_r. exists es'.
      split; [exact Hfa | apply incl_appr, Hi].
Qed.

Lemma truthy_not_empty (v : value) : truthy v = true -> isEmpty v = false.
Proof.
  destruct v; simpl; try reflexivity; try discriminate.
  unfold isEmpty. simpl. intros H. apply negb_true_iff in H. exact H.
Qed.

(** The loop body on a truthy value that is not a sequence, under a rule of
    type array: the type-mismatch error and nothing else. *)
Lemma checkField_not_sequence (blockData : value) (fieldName : string)
  (fieldConfig : FieldRule) (v : value) :
  type fieldConfig = "array" ->
  get blockData fieldName = Ok v ->
  truthy v = true -> isArray v = false ->
  checkField blockData (fieldName, fieldConfig) = Ok [NotArray fieldName].
Proof.
  intros Hty Hget Ht Ha. unfold checkField. rewrite Hget. simpl.
  rewrite (truthy_not_empty _ Ht). simpl. rewrite andb_false_r, Hty. simpl.
  unfold checkArray. rewrite Ht, Ha. reflexivity.
Qed.

(** The loop body on a sequence, under a rule of type array. *)
Lemma checkField_sequence (blockData : value) (fieldName : string)
  (fieldConfig : FieldRule) (items : list value) :
  type fieldConfig = "array" ->
  get blockData fieldName = Ok (VArr items) ->
  checkField blockData (fieldName, fieldConfig)
  = (es <- checkItems fieldName fieldConfig items ;;
     Ok (checkMinItems fieldName fieldConfig (List.length items)
         ++ checkMaxItems fieldName fieldConfig (List.length items)
         ++ es)%list).
Proof.
  intros Hty Hget. unfold checkField. rewrite Hget. simpl.
  rewrite andb_false_r. rewrite Hty. reflexivity.
Qed.

Lemma checkFields_complete (fields : list (string * FieldRule))
  (blockData : value) (es : list event) (e : event) :
  checkFields fields blockData = Ok es ->
  justified fields blockData e ->
  In e es.
Proof.
  unfold checkFields. intros H J.
  destruct J as
    [f c v Hin Hget Hr He | f c v Hin Hget Hty Ht Ha
    | f c items m Hin Hget Hty Hc Hlt | f c items m Hin Hget Hty Hc Hgt
    | f c items sch index item s sc sv Hin Hget Hty Hsch Hnth Hs Hsv Hr He
    | f c items sch index item s sc n m Hin Hget Hty Hsch Hnth Hs Hsv Hnum Hm Hlt];
    destruct (forEach_incl _ _ _ _ H Hin) as (es' & Hf & Hincl); apply Hincl.
  - unfold checkField in Hf. rewrite Hget in Hf. simpl in Hf.
    rewrite Hr, He in Hf. destruct (empty_not_zero_nor_false _ He) as [E1 E2].
    rewrite E1, E2 in Hf. inversion Hf; subst. left. reflexivity.
  - rewrite (checkField_not_sequence _ _ _ _ Hty Hget Ht Ha) in Hf.
    inversion Hf; subst. left. reflexivity.
  - rewrite (checkField_sequence _ _ _ _ Hty Hget) in Hf.
    apply bind_Ok in Hf. destruct Hf as (ies & _ & Hf). inversion Hf; subst.
    apply in_or_app. left. unfold checkMinItems. rewrite Hc.
    apply Z.ltb_lt in Hlt. rewrite Hlt. left. reflexivity.
  - rewrite (checkField_sequence _ _ _ _ Hty Hget) in Hf.
    apply bind_Ok in Hf. destruct Hf as (ies & _ & Hf). inversion Hf; subst.
    apply in_or_app. right. apply in_or_app. left.
    unfold checkMaxItems. rewrite Hc.
    apply Z.gt_lt, Z.gtb_lt in Hgt. rewrite Hgt. left. reflexivity.
  - rewrite (checkField_sequence _ _ _ _ Hty Hget) in Hf.
    apply bind_Ok in Hf. destruct Hf as (ies & Hitems & Hf). inversion Hf; subst.
    apply in_or_app. right. apply in_or_app. right.
    unfold checkItems in Hitems. rewrite Hsch in Hitems.
    destruct (forEachFrom_incl _ _ _ _ _ _ Hitems Hnth) as (es1 & H1 & I1).
    apply I1. simpl in H1. unfold checkItem in H1.
    destruct (forEach_incl _ _ _ _ H1 Hs) as (es2 & H2 & I2).
    apply I2. rewrite Hsv in H2. simpl in H2. inversion H2; subst.
    apply in_or_app. left. unfold checkSubRequired. rewrite Hr, He.
    destruct (empty_not_zero_nor_false _ He) as [-> ->]. left. reflexivity.
  - rewrite (checkField_sequence _ _ _ _ Hty Hget) in Hf.
    apply bind_Ok in Hf. destruct Hf as (ies & Hitems & Hf). inversion Hf; subst.
    apply in_or_app. right. apply in_or_app. right.
    unfold checkItems in Hitems. rewrite Hsch in Hitems.
    destruct (forEachFrom_incl _ _ _ _ _ _ Hitems Hnth) as (es1 & H1 & I1).
    apply I1. simpl in H1. unfold checkItem in H1.
    destruct (forEach_incl _ _ _ _ H1 Hs) as (es2 & H2 & I2).
    apply I2. rewrite Hsv in H2. simpl in H2. inversion H2; subst.
    apply in_or_app. right. unfold checkSubMin. rewrite Hnum, Hm, Hlt.
    left. reflexivity.
Qed.

(** The names the validator reads are not inherited from
    [Object.prototype], for every schema of the catalog. *)
Lemma catalog_names_plain :
  forallb (fun entry => plain_names (names_of (snd entry))) BLOCK_SCHEMAS = true.
Proof. reflexivity. Qed.

(** *** The result of [validateBlock] for a type of the catalog *)

Lemma validateBlock_own (blockType : string) (schema : BlockSchema)
  (blockData : value) (r : ValidationResult) :
  BLOCK_SCHEMAS_get blockType = Own schema ->
  validateBlock blockType blockData = Ok r ->
  exists es,
    checkFields (fields schema) blockData = Ok es /\
    errors r = map render es /\
    valid r = Nat.eqb (List.length es) 0.
Proof.
  unfold validateBlock. intros -> H.
  apply bind_Ok in H. destruct H as (es & Hes & H).
  inversion H; subst; simpl. exists es.
  rewrite length_map. auto.
Qed.

Lemma get_Ok_inj (v : value) (k : string) (x y : value) :
  get v k = Ok x -> get v k = Ok y -> x = y.
Proof. intros H1 H2. rewrite H1 in H2. inversion H2. reflexivity. Qed.

(** Identify the item named by a justification with the one read through
    [Hget] and [Hnth]. *)
Ltac same_item Hget Hnth :=
  match goal with
  | H1 : get _ _ = Ok (VArr ?its), H2 : nth_error ?its _ = Some _ |- _ =>
      let E := fresh "E" in
      pose proof (get_Ok_inj _ _ _ _ H1 Hget) as E; inversion E; subst;
      rewrite Hnth in H2; inversion H2; subst
  end.

(** C1.  For every block type of the catalog and every payload, the errors
    that [validateBlock] returns are the messages of a list [es] of emitted
    errors in which no required-field error stands for a top-level field
    whose value is the number 0 or the boolean false, nor for a sub-field of
    an item whose value is 0 or false, whatever [required] says. *)
Theorem required_spares_zero_and_false (blockType : string)
  (schema : BlockSchema) (blockData : value) (r : ValidationResult) :
  BLOCK_SCHEMAS_get blockType = Own schema ->
  validateBlock blockType blockData = Ok r ->
  exists es,
    checkFields (fields schema) blockData = Ok es /\
    errors r = map render es /\
    (forall fieldName l v,
        get blockData fieldName = Ok v ->
        zero_or_false v ->
        ~ In (RequiredField fieldName l) es) /\
    (forall fieldName items index item subFieldName l v,
        get blockData fieldName = Ok (VArr items) ->
        nth_error items index = Some item ->
        get item subFieldName = Ok v ->
        zero_or_false v ->
        ~ In (RequiredSubField fieldName index subFieldName l) es).
Proof.
  intros Hown Hr.
  destruct (validateBlock_own _ _ _ _ Hown Hr) as (es & Hes & Herr & _).
  exists es. repeat split; auto.
  - intros f l v Hget Hz Hin.
    pose proof (checkFields_sound _ _ _ _ Hes Hin) as J.
    inversion J; subst.
    match goal with
    | H1 : get blockData f = Ok ?a, H2 : isEmpty ?a = true |- _ =>
        rewrite (get_Ok_inj _ _ _ _ H1 Hget) in H2;
        rewrite (zero_or_false_not_empty _ Hz) in H2; discriminate H2
    end.
  - intros f items index item s l v Hget Hnth Hsub Hz Hin.
    pose proof (checkFields_sound _ _ _ _ Hes Hin) as J.
    inversion J; subst.
    same_item Hget Hnth.
    match goal with
    | H3 : get _ s = Ok ?sv, H4 : isEmpty ?sv = true |- _ =>
        rewrite (get_Ok_inj _ _ _ _ H3 Hsub) in H4;
        rewrite (zero_or_false_not_empty _ Hz) in H4; discriminate H4
    end.
Qed.

Lemma required_spares_zero_and_false_witness :
  exists es,
    checkFields (fields process_schema) falsy_step_block = Ok es /\
    ["steps[0].number phải lớn hơn hoặc bằng 1"] = map render es /\
    (forall fieldName l v,
        get falsy_step_block fieldName = Ok v ->
        zero_or_false v ->
        ~ In (RequiredField fieldName l) es) /\
    (forall fieldName items index item subFieldName l v,
        get falsy_step_block fieldName = Ok (VArr items) ->
        nth_error items index = Some item ->
        get item subFieldName = Ok v ->
        zero_or_false v ->
        ~ In (RequiredSubField fieldName index subFieldName l) es).
Proof.
  apply (required_spares_zero_and_false "process" process_schema
           falsy_step_block
           {| valid := false;
              errors := ["steps[0].number phải lớn hơn hoặc bằng 1"] |});
    reflexivity.
Defined.

(** C8.  For every block type of the catalog and every payload, a
    minimum-bound error for sub-field [s] of item [i] of field [f] is emitted
    only under a sub-field rule of type number with that [min], when the
    sub-value is a Number below [min]; a sub-value that is not a Number never
    yields a bound error. *)
Theorem min_bound_only_for_numbers (blockType : string)
  (schema : BlockSchema) (blockData : value) (r : ValidationResult) :
  BLOCK_SCHEMAS_get blockType = Own schema ->
  validateBlock blockType blockData = Ok r ->
  exists es,
    checkFields (fields schema) blockData = Ok es /\
    errors r = map render es /\
    (forall fieldName index subFieldName m,
        In (BelowMin fieldName index subFieldName m) es ->
        exists fieldConfig sch subFieldConfig items item n,
          In (fieldName, fieldConfig) (fields schema) /\
          itemSchema fieldConfig = Some sch /\
          In (subFieldName, subFieldConfig) sch /\
          type subFieldConfig = "number" /\
          min subFieldConfig = Some m /\
          get blockData fieldName = Ok (VArr items) /\
          nth_error items index = Some item /\
          get item subFieldName = Ok (VNum n) /\
          num_lt_int n m = true) /\
    (forall fieldName items index item subFieldName subValue m,
        get blockData fieldName = Ok (VArr items) ->
        nth_error items index = Some item ->
        get item subFieldName = Ok subValue ->
        (forall n, subValue <> VNum n) ->
        ~ In (BelowMin fieldName index subFieldName m) es).
Proof.
  intros Hown Hr.
  destruct (validateBlock_own _ _ _ _ Hown Hr) as (es & Hes & Herr & _).
  exists es. repeat split; auto.
  - intros f i s m Hin.
    pose proof (checkFields_sound _ _ _ _ Hes Hin) as J.
    inversion J; subst.
    do 6 eexists. repeat split; eassumption.
  - intros f items i item s sv m Hget Hnth Hsub Hnot Hin.
    pose proof (checkFields_sound _ _ _ _ Hes Hin) as J.
    inversion J; subst.
    same_item Hget Hnth.
    match goal with
    | H3 : get _ s = Ok (VNum ?n) |- _ =>
        apply (Hnot n); exact (get_Ok_inj _ _ _ _ Hsub H3)
    end.
Qed.

Lemma min_bound_only_for_numbers_witness :
  exists es,
    checkFields (fields pricing_schema) priced_block = Ok es /\
    ["subservices[0].price phải lớn hơn hoặc bằng 0"] = map render es /\
    (forall fieldName index subFieldName m,
        In (BelowMin fieldName index subFieldName m) es ->
        exists fieldConfig sch subFieldConfig items item n,
          In (fieldName, fieldConfig) (fields pricing_schema) /\
          itemSchema fieldConfig = Some sch /\
          In (subFieldName, subFieldConfig) sch /\
          type subFieldConfig = "number" /\
          min subFieldConfig = Some m /\
          get priced_block fieldName = Ok (VArr items) /\
          nth_error items index = Some item /\
          get item subFieldName = Ok (VNum n) /\
          num_lt_int n m = true) /\
    (forall fieldName items index item subFieldName subValue m,
        get priced_block fieldName = Ok (VArr items) ->
        nth_error items index = Some item ->
        get item subFieldName = Ok subValue ->
        (forall n, subValue <> VNum n) ->
        ~ In (BelowMin fieldName index subFieldName m) es).
Proof.
  apply (min_bound_only_for_numbers "pricing" pricing_schema priced_block
           {| valid := false;
              errors := ["subservices[0].price phải lớn hơn hoặc bằng 0"] |});
    reflexivity.
Defined.

(** The loop body on a rule that is not of type array. *)
Lemma checkField_plain (blockData : value) (fieldName : string)
  (fieldConfig : FieldRule) (v : value) :
  type fieldConfig <> "array" ->
  get blockData fieldName = Ok v ->
  checkField blockData (fieldName, fieldConfig)
  = Ok (if required fieldConfig && isEmpty v
        then [RequiredField fieldName (label_or_name fieldConfig fieldName)]
        else []) /\
  (isEmpty v = false -> checkField blockData (fieldName, fieldConfig) = Ok []).
Proof.
  intros Hty Hget.
  assert (E : checkField blockData (fieldName, fieldConfig)
              = Ok (if required fieldConfig && isEmpty v
                    then [RequiredField fieldName
                            (label_or_name fieldConfig fieldName)]
                    else [])).
  { unfold checkField. rewrite Hget. simpl. rewrite required_test.
    destruct (required fieldConfig && isEmpty v); [reflexivity |].
    destruct (String.eqb_spec (type fieldConfig) "array"); [contradiction |].
    reflexivity. }
  split; [exact E |].
  intros He. rewrite E, He, andb_false_r. reflexivity.
Qed.

(** C5 (what the code does).  A pricing block whose [subservices] is the
    number 0, or the boolean false, is accepted: the value passes the
    required test, is not a sequence, and no type-mismatch error is emitted
    for the array field. *)
Theorem falsy_value_passes_array_field :
  validateBlock "pricing"
    (VObj [ ("service_title", VStr "X"); ("subservices", VNum (Fin 0)) ])
  = Ok {| valid := true; errors := [] |} /\
  validateBlock "pricing"
    (VObj [ ("service_title", VStr "X"); ("subservices", VBool false) ])
  = Ok {| valid := true; errors := [] |} /\
  validateBlock "pricing"
    (VObj [ ("service_title", VStr "X"); ("subservices", VNum (Fin 5)) ])
  = Ok {| valid := false;
          errors := ["Field " ++ dq ++ "subservices" ++ dq
                     ++ " phải là danh sách (array)"] |}.
Proof. repeat split. Qed.

(** A type that is neither in the catalog nor inherited gets the single
    error that names it, whatever the payload, which is not read. *)
Lemma absent_type_fails_closed (blockType : string) (blockData : value) :
  BLOCK_SCHEMAS_get blockType = Absent ->
  validateBlock blockType blockData
  = Ok {| valid := false;
          errors := ["Block type " ++ dq ++ blockType ++ dq ++ " không tồn tại"] |}.
Proof. unfold validateBlock. intros ->. reflexivity. Qed.

(** C4 (what the code does).  [constructor] is not a type of the catalog,
    yet [BLOCK_SCHEMAS["constructor"]] is truthy (inherited from
    [Object.prototype]) and has no [fields]: [validateBlock] throws instead
    of returning the unknown-type error.  The same holds for every inherited
    name; a name like [not_a_type] gets the error. *)
Theorem inherited_name_throws :
  assoc "constructor" BLOCK_SCHEMAS = None /\
  validateBlock "constructor" (VObj []) = Throw TypeError /\
  (forall blockType blockData,
      In blockType Object_prototype_keys ->
      validateBlock blockType blockData = Throw TypeError) /\
  validateBlock "not_a_type" (VObj [])
  = Ok {| valid := false;
          errors := ["Block type " ++ dq ++ "not_a_type" ++ dq
                     ++ " không tồn tại"] |}.
Proof.
  repeat split.
  intros blockType blockData Hin. simpl in Hin.
  repeat (destruct Hin as [<- | Hin]; [reflexivity |]). contradiction.
Qed.

(** C6.  Validating the pricing type against the payload whose only package
    lacks [price] returns [valid = false] with exactly one error, whose text
    starts with the path [subservices[0].price]. *)
Theorem pricing_missing_price :
  validateBlock "pricing" unpriced_block
  = Ok {| valid := false;
          errors := ["subservices[0].price (Giá (VNĐ)) là bắt buộc"] |} /\
  String.prefix "subservices[0].price"
    "subservices[0].price (Giá (VNĐ)) là bắt buộc" = true.
Proof. split; reflexivity. Qed.

(** *** When [validateBlock] returns *)

Lemma checkItem_returns (fieldName : string) (sch : list (string * FieldRule))
  (item : value) (index : nat) :
  (sch <> [] -> readable item) ->
  exists es, checkItem fieldName sch item index = Ok es.
Proof.
  intros H. unfold checkItem. apply forEach_returns.
  intros [s c] Hin.
  assert (R : readable item).
  { apply H. intros ->. contradiction. }
  destruct (get_readable item s R) as (sv & ->). simpl. eexists. reflexivity.
Qed.

Lemma checkField_returns (fields : list (string * FieldRule))
  (blockData : value) (fieldName : string) (fieldConfig : FieldRule) :
  readable blockData ->
  items_readable fields blockData ->
  In (fieldName, fieldConfig) fields ->
  exists es, checkField blockData (fieldName, fieldConfig) = Ok es.
Proof.
  intros R IR Hin. unfold checkField.
  destruct (get_readable blockData fieldName R) as (v & Hget).
  rewrite Hget. simpl.
  destruct (required fieldConfig && (isEmpty v && ne_zero v && ne_false v));
    [eexists; reflexivity |].
  destruct (String.eqb_spec (type fieldConfig) "array") as [Hty |];
    [| eexists; reflexivity].
  unfold checkArray.
  destruct (truthy v && negb (isArray v)); [eexists; reflexivity |].
  destruct v; try (eexists; reflexivity).
  assert (I : exists es, checkItems fieldName fieldConfig items = Ok es).
  { unfold checkItems. destruct (itemSchema fieldConfig) as [sch |] eqn:Hsch;
      [| eexists; reflexivity].
    apply forEachFrom_returns. intros item k Hitem.
    apply checkItem_returns. intros Hne. eapply IR; eauto. }
  destruct I as (es & ->). simpl. eexists. reflexivity.
Qed.

Lemma checkFields_returns (fields : list (string * FieldRule))
  (blockData : value) :
  readable blockData ->
  items_readable fields blockData ->
  exists es, checkFields fields blockData = Ok es.
Proof.
  intros R IR. unfold checkFields. apply forEach_returns.
  intros [f c] Hin. eapply checkField_returns; eauto.
Qed.





(** *** Validation against any schema *)

Lemma validateBlock_with (blockType : string) (schema : BlockSchema)
  (blockData : value) :
  BLOCK_SCHEMAS_get blockType = Own schema ->
  validateBlock blockType blockData = validateWith schema blockData.
Proof. unfold validateBlock, validateWith. intros ->. reflexivity. Qed.

Lemma validateWith_Ok (schema : BlockSchema) (blockData : value)
  (r : ValidationResult) :
  validateWith schema blockData = Ok r ->
  exists es,
    checkFields (fields schema) blockData = Ok es /\
    errors r = map render es /\
    valid r = Nat.eqb (List.length es) 0.
Proof.
  unfold validateWith. intros H.
  apply bind_Ok in H. destruct H as (es & Hes & H).
  inversion H; subst; simpl. exists es. rewrite length_map. auto.
Qed.

Lemma NoDup_fst_unique {A : Type} (l : list (string * A)) (k : string)
  (a b : A) :
  NoDup (map fst l) -> In (k, a) l -> In (k, b) l -> a = b.
Proof.
  induction l as [| [k' c] rest IH]; simpl; intros Hnd Ha Hb; [contradiction |].
  inversion Hnd as [| x xs Hnotin Hrest]; subst.
  destruct Ha as [Ha | Ha]; destruct Hb as [Hb | Hb].
  - congruence.
  - inversion Ha; subst. exfalso. apply Hnotin.
    apply (in_map fst) in Hb. exact Hb.
  - inversion Hb; subst. exfalso. apply Hnotin.
    apply (in_map fst) in Ha. exact Ha.
  - auto.
Qed.

Lemma items_objects_readable (fields : list (string * FieldRule))
  (blockData : value) :
  items_objects fields blockData -> items_readable fields blockData.
Proof.
  intros H f c sch items item Hin Hty Hsch _ Hget Hitem.
  destruct (H f c sch items item Hin Hty Hsch Hget Hitem) as (props & ->).
  split; discriminate.
Qed.

Lemma validateWith_returns (schema : BlockSchema) (blockData : value) :
  readable blockData ->
  items_objects (fields schema) blockData ->
  exists r es,
    validateWith schema blockData = Ok r /\
    checkFields (fields schema) blockData = Ok es /\
    errors r = map render es /\
    valid r = Nat.eqb (List.length es) 0.
Proof.
  intros R IO.
  destruct (checkFields_returns _ _ R (items_objects_readable _ _ IO))
    as (es & Hes).
  exists {| valid := Nat.eqb (List.length (map render es)) 0;
            errors := map render es |}, es.
  unfold validateWith. rewrite Hes. simpl. rewrite length_map. auto.
Qed.

Lemma get_array_readable (blockData : value) (fieldName : string)
  (items : list value) :
  get blockData fieldName = Ok (VArr items) -> readable blockData.
Proof. destruct blockData; simpl; intros H; split; discriminate. Qed.

(** The rule an error about [fieldName] was emitted under is the rule of
    [fieldName], and the value it was emitted for is the value of
    [fieldName]. *)
Ltac same_field Hnd Hin Hget :=
  repeat match goal with
         | H : In (_, ?c') _ |- _ =>
             tryif constr_eq H Hin then fail else
               (pose proof (NoDup_fst_unique _ _ _ _ Hnd H Hin); subst c';
                clear H)
         end;
  repeat match goal with
         | H : get _ _ = Ok ?v' |- _ =>
             tryif constr_eq H Hget then fail else
               (pose proof (get_Ok_inj _ _ _ _ H Hget) as E;
                first [ subst v' | inversion E; subst ]; clear H)
         end.

(** C10.  For every schema (its field names distinct, as the keys of an
    object are, and none inherited from [Object.prototype]) and every payload
    that is an object with objects as the items of its sequences, the
    validation returns a result [r], which is the result of [validateBlock]
    when the schema is the one of a catalog type, and: for a field whose rule
    is not of type array, the only error [r] holds about that field is the
    required error, and [r] holds it exactly when the rule is required and
    the value is empty; a value that is not empty gives no error about the
    field whatever its runtime type (no type, options or min/max test).  A
    sub-field of an item whose rule is not of type number never gets a
    minimum error. *)
Theorem non_array_field_only_required (schema : BlockSchema)
  (props : list (string * value)) :
  plain_names (names_of schema) = true ->
  NoDup (map fst (fields schema)) ->
  items_objects (fields schema) (VObj props) ->
  exists r es,
    validateWith schema (VObj props) = Ok r /\
    errors r = map render es /\
    valid r = Nat.eqb (List.length es) 0 /\
    (forall blockType,
        BLOCK_SCHEMAS_get blockType = Own schema ->
        validateBlock blockType (VObj props) = Ok r) /\
    (forall fieldName fieldConfig v,
        In (fieldName, fieldConfig) (fields schema) ->
        type fieldConfig <> "array" ->
        get (VObj props) fieldName = Ok v ->
        (forall e, In e es -> field_of e = Some fieldName ->
                   e = RequiredField fieldName
                         (label_or_name fieldConfig fieldName)) /\
        (In (RequiredField fieldName (label_or_name fieldConfig fieldName)) es
         <-> required fieldConfig = true /\ isEmpty v = true) /\
        (isEmpty v = false ->
         forall e, In e es -> field_of e <> Some fieldName)) /\
    (forall fieldName fieldConfig sch subFieldName subFieldConfig,
        In (fieldName, fieldConfig) (fields schema) ->
        itemSchema fieldConfig = Some sch ->
        NoDup (map fst sch) ->
        In (subFieldName, subFieldConfig) sch ->
        type subFieldConfig <> "number" ->
        forall index m, ~ In (BelowMin fieldName index subFieldName m) es).
Proof.
  intros _ Hnd IO.
  assert (R : readable (VObj props)) by (split; discriminate).
  destruct (validateWith_returns schema (VObj props) R IO)
    as (r & es & Hr & Hes & Herr & Hvalid).
  exists r, es. split; [exact Hr |]. split; [exact Herr |].
  split; [exact Hvalid |]. split; [| split].
  - intros blockType Hown. rewrite (validateBlock_with _ _ _ Hown). exact Hr.
  - intros f c v Hin Hty Hget.
    assert (Only : forall e, In e es -> field_of e = Some f ->
                     e = RequiredField f (label_or_name c f)
                     /\ required c = true /\ isEmpty v = true).
    { intros e He Hf.
      pose proof (checkFields_sound _ _ _ _ Hes He) as J.
      inversion J; subst; simpl in Hf; inversion Hf; subst;
        same_field Hnd Hin Hget; try congruence.
      auto. }
    split; [| split].
    + intros e He Hf. apply (Only e He Hf).
    + split.
      * intros He. destruct (Only _ He eq_refl) as (_ & H1 & H2). auto.
      * intros [H1 H2]. eapply checkFields_complete; [exact Hes |].
        eapply by_required; eauto.
    + intros Hne e He Hf. destruct (Only e He Hf) as (_ & _ & H). congruence.
  - intros f c sch s sc Hin Hsch Hnds Hs Hnum index m He.
    pose proof (checkFields_sound _ _ _ _ Hes He) as J.
    inversion J; subst.
    match goal with
    | H : In (f, ?c') (fields schema) |- _ =>
        pose proof (NoDup_fst_unique _ _ _ _ Hnd H Hin); subst c'
    end.
    match goal with
    | H : itemSchema c = Some ?sch' |- _ =>
        rewrite Hsch in H; inversion H; subst
    end.
    match goal with
    | H : In (s, ?sc') _ |- _ =>
        pose proof (NoDup_fst_unique _ _ _ _ Hnds H Hs); subst sc'
    end.
    congruence.
Qed.

(** Closes [NoDup] of a list of literal names. *)
Ltac distinct :=
  simpl; repeat (constructor; [simpl; intuition discriminate |]); constructor.

(** Closes [items_objects] of a literal schema and a literal payload. *)
Ltac objects :=
  let Hin := fresh in
  let Hget := fresh in
  let Hitem := fresh in
  intros ? ? ? ? ? Hin ? ? Hget Hitem; simpl in Hin;
  repeat (destruct Hin as [Hin | Hin]; [inversion Hin; subst; clear Hin |]);
  try contradiction;
  try discriminate;
  simpl in Hget; inversion Hget; subst; clear Hget; simpl in Hitem;
  repeat (destruct Hitem as [Hitem | Hitem]; [subst; eauto |]);
  contradiction.

(** An intro block whose title is [42] and whose image is [true] is valid;
    so is a survey with a rating of 99 for [max: 5], a colour that is no
    option and a text as its boolean. *)
Lemma non_array_field_only_required_witness :
  validateBlock "intro" odd_intro_block = Ok {| valid := true; errors := [] |}
  /\ exists r,
       validateWith survey_schema survey_block = Ok r /\
       valid r = true /\
       errors r = [].
Proof.
  split.
  - destruct (non_array_field_only_required intro_schema
                [ ("title", VNum (Fin 42)); ("banner_image_url", VBool true) ]
                eq_refl ltac:(distinct) ltac:(objects))
      as (r & es & Hr & _ & _ & Hlink & _).
    unfold odd_intro_block.
    rewrite (Hlink "intro" eq_refl). rewrite <- Hr. reflexivity.
  - destruct (non_array_field_only_required survey_schema
                [ ("rating", VNum (Fin 99)); ("colour", VStr "bogus");
                  ("agree", VStr "yes") ]
                eq_refl ltac:(distinct) ltac:(objects))
      as (r & es & Hr & _ & _ & _ & _).
    exists r. split; [exact Hr |].
    change (validateWith survey_schema survey_block = Ok r) in Hr.
    vm_compute in Hr. inversion Hr; subst. split; reflexivity.
Defined.

(** C7.  For every schema (its field names distinct and none inherited from
    [Object.prototype]), every field of it whose rule is of type array and
    every payload that holds a sequence for that field, the items of its
    sequences being objects: the validation returns a result [r], which is
    the result of [validateBlock] when the schema is the one of a catalog
    type, and
    - [r] holds the minItems error of the field exactly when the bound is
      there, is not [0] (the test is on the truthiness of the bound) and the
      sequence is shorter; likewise for maxItems and a longer sequence; [r]
      is then not valid;
    - whether or not a bound is violated, the item-level pass has run over
      the sequence: [r] holds the required error of every empty required
      sub-field of every item, and the minimum error of every number
      sub-field below its [min];
    - for the empty sequence [r] holds no other error about the field than
      the cardinality errors. *)
Theorem cardinality_then_items (schema : BlockSchema) (blockData : value)
  (fieldName : string) (fieldConfig : FieldRule) (items : list value) :
  plain_names (names_of schema) = true ->
  NoDup (map fst (fields schema)) ->
  items_objects (fields schema) blockData ->
  In (fieldName, fieldConfig) (fields schema) ->
  type fieldConfig = "array" ->
  get blockData fieldName = Ok (VArr items) ->
  exists r es,
    validateWith schema blockData = Ok r /\
    errors r = map render es /\
    valid r = Nat.eqb (List.length es) 0 /\
    (forall blockType,
        BLOCK_SCHEMAS_get blockType = Own schema ->
        validateBlock blockType blockData = Ok r) /\
    (forall m,
        minItems fieldConfig = Some m ->
        (In (TooFewItems fieldName m) es
         <-> m <> 0 /\ Z.of_nat (List.length items) < m) /\
        (m <> 0 -> Z.of_nat (List.length items) < m -> valid r = false)) /\
    (forall m,
        maxItems fieldConfig = Some m ->
        (In (TooManyItems fieldName m) es
         <-> m <> 0 /\ Z.of_nat (List.length items) > m) /\
        (m <> 0 -> Z.of_nat (List.length items) > m -> valid r = false)) /\
    (forall sch index item subFieldName subFieldConfig subValue,
        itemSchema fieldConfig = Some sch ->
        nth_error items index = Some item ->
        In (subFieldName, subFieldConfig) sch ->
        get item subFieldName = Ok subValue ->
        (required subFieldConfig = true ->
         isEmpty subValue = true ->
         In (RequiredSubField fieldName index subFieldName
               (label subFieldConfig)) es) /\
        (forall n m,
            type subFieldConfig = "number" ->
            subValue = VNum n ->
            min subFieldConfig = Some m ->
            num_lt_int n m = true ->
            In (BelowMin fieldName index subFieldName m) es)) /\
    (items = [] ->
     forall e, In e es -> field_of e = Some fieldName ->
       (exists m, minItems fieldConfig = Some m /\ e = TooFewItems fieldName m)
       \/ (exists m, maxItems fieldConfig = Some m
                     /\ e = TooManyItems fieldName m)).
Proof.
  intros _ Hnd IO Hin Hty Hget.
  pose proof (get_array_readable _ _ _ Hget) as R.
  destruct (validateWith_returns schema blockData R IO)
    as (r & es & Hr & Hes & Herr & Hvalid).
  assert (Invalid : forall e, In e es -> valid r = false).
  { intros e He. rewrite Hvalid. destruct es; [contradiction | reflexivity]. }
  assert (Conf : forall bound m,
             configured bound = Some m <-> bound = Some m /\ m <> 0).
  { intros [b |] m; simpl.
    - destruct (Z.eqb_spec b 0); split.
      + discriminate.
      + intros [E Hm]. congruence.
      + intros E. inversion E; subst. auto.
      + intros [E _]. exact E.
    - split; [discriminate | intros [E _]; discriminate]. }
  exists r, es. split; [exact Hr |]. split; [exact Herr |].
  split; [exact Hvalid |]. split; [| split; [| split; [| split]]].
  - intros blockType Hown. rewrite (validateBlock_with _ _ _ Hown). exact Hr.
  - intros m Hm.
    assert (Sent : m <> 0 -> Z.of_nat (List.length items) < m ->
                   In (TooFewItems fieldName m) es).
    { intros Hz Hlt. eapply checkFields_complete; [exact Hes |].
      eapply by_min_items; eauto. apply Conf. auto. }
    split; [split |].
    + intros He. pose proof (checkFields_sound _ _ _ _ Hes He) as J.
      inversion J; subst. same_field Hnd Hin Hget.
      match goal with
      | H : configured _ = Some _ |- _ => apply Conf in H; destruct H
      end.
      auto.
    + intros [Hz Hlt]. auto.
    + intros Hz Hlt. eapply Invalid; eauto.
  - intros m Hm.
    assert (Sent : m <> 0 -> Z.of_nat (List.length items) > m ->
                   In (TooManyItems fieldName m) es).
    { intros Hz Hgt. eapply checkFields_complete; [exact Hes |].
      eapply by_max_items; eauto. apply Conf. auto. }
    split; [split |].
    + intros He. pose proof (checkFields_sound _ _ _ _ Hes He) as J.
      inversion J; subst. same_field Hnd Hin Hget.
      match goal with
      | H : configured _ = Some _ |- _ => apply Conf in H; destruct H
      end.
      auto.
    + intros [Hz Hgt]. auto.
    + intros Hz Hgt. eapply Invalid; eauto.
  - intros sch index item s sc sv Hsch Hnth Hs Hsv. split.
    + intros Hreq Hempty. eapply checkFields_complete; [exact Hes |].
      eapply by_sub_required; eauto.
    + intros n m Hnum -> Hmin Hlt. eapply checkFields_complete; [exact Hes |].
      eapply by_sub_min; eauto.
  - intros -> e He Hf.
    pose proof (checkFields_sound _ _ _ _ Hes He) as J.
    inversion J; subst; simpl in Hf; inversion Hf; subst;
      same_field Hnd Hin Hget.
    + match goal with H : isEmpty (VArr _) = true |- _ => discriminate H end.
    + match goal with H : isArray (VArr _) = false |- _ => discriminate H end.
    + left. eexists. split; [| reflexivity].
      match goal with
      | H : configured _ = Some _ |- _ => apply Conf in H; apply H
      end.
    + right. eexists. split; [| reflexivity].
      match goal with
      | H : configured _ = Some _ |- _ => apply Conf in H; apply H
      end.
    + match goal with
      | H : nth_error [] ?i = Some _ |- _ => destruct i; discriminate H
      end.
    + match goal with
      | H : nth_error [] ?i = Some _ |- _ => destruct i; discriminate H
      end.
Qed.

(** A process block with [steps: []] gets the minItems error and nothing
    else; a gallery of one photo for [minItems: 2], the photo without address
    and of width 0, gets the minItems error and the two errors of the
    photo. *)
Lemma cardinality_then_items_witness :
  validateBlock "process" no_step_block
  = Ok {| valid := false; errors := [render (TooFewItems "steps" 1)] |}
  /\ exists r,
       validateWith gallery_schema gallery_block = Ok r /\
       valid r = false /\
       In (render (TooFewItems "photos" 2)) (errors r) /\
       In (render (RequiredSubField "photos" 0 "url" (Some "URL"))) (errors r) /\
       In (render (BelowMin "photos" 0 "width" 1)) (errors r).
Proof.
  split.
  - destruct (cardinality_then_items process_schema no_step_block
                "steps" steps_rule []
                eq_refl ltac:(distinct) ltac:(objects)
                ltac:(simpl; auto) eq_refl eq_refl)
      as (r & es & Hr & _ & _ & Hlink & _).
    rewrite (Hlink "process" eq_refl). rewrite <- Hr. reflexivity.
  - destruct (cardinality_then_items gallery_schema gallery_block
                "photos" photos_rule
                [ VObj [ ("url", VStr EmptyString); ("width", VNum (Fin 0)) ] ]
                eq_refl ltac:(distinct) ltac:(objects)
                ltac:(simpl; auto) eq_refl eq_refl)
      as (r & es & Hr & Herr & _ & _ & Hmin & _ & Hitems & _).
    destruct (Hmin 2 eq_refl) as (Hsent & Hinvalid).
    exists r. split; [exact Hr |].
    split; [apply Hinvalid; simpl; [discriminate | lia] |].
    rewrite Herr. split; [| split].
    + apply in_map. apply Hsent. simpl. split; [discriminate | lia].
    + apply in_map.
      apply (proj1 (Hitems _ 0%nat _ "url" (field "text" "URL" true)
                      (VStr EmptyString) eq_refl eq_refl
                      ltac:(simpl; auto) eq_refl));
        reflexivity.
    + apply in_map.
      apply (proj2 (Hitems _ 0%nat _ "width" (number_field "Width" true 1)
                      (VNum (Fin 0)) eq_refl eq_refl
                      ltac:(simpl; auto) eq_refl)
               (Fin 0) 1);
        reflexivity.
Defined.

(** The two cases the statement above leaves out, on schemas that are not of
    the catalog (every bound of the catalog is [minItems: 1]): a bound of
    [0] is not enforced, so one tag passes [maxItems: 0]; and a [null] item
    makes the item-level pass throw, so the call gives no result at all,
    although the sequence is too short. *)
Example zero_bound_and_null_item :
  maxItems tags_rule = Some 0
  /\ validateWith tags_schema tags_block = Ok {| valid := true; errors := [] |}
  /\ validateWith gallery_schema gallery_null_block = Throw TypeError.
Proof. split; [| split]; reflexivity. Qed.

End BlockFacts.

(** ** Properties of the booking request validator *)

Module BookingFacts.
Import JS BookingValidator.

Lemma Json_message (st1 st2 : Z) (ok1 ok2 : bool) (m1 m2 : string) :
  Json st1 ok1 m1 = Json st2 ok2 m2 -> m1 = m2.
Proof. congruence. Qed.

Lemma tooSoon_not_tooFar (a b : num) : msgTooSoon a <> msgTooFar b.
Proof. unfold msgTooSoon, msgTooFar. simpl. discriminate. Qed.

Lemma tooSoon_not_hours (a b c : num) : msgTooSoon a <> msgOutsideHours b c.
Proof. unfold msgTooSoon, msgOutsideHours. simpl. discriminate. Qed.

Lemma tooFar_not_hours (a b c : num) : msgTooFar a <> msgOutsideHours b c.
Proof. unfold msgTooFar, msgOutsideHours. simpl. discriminate. Qed.

(** [parseInt] and the date parser on a few strings. *)
Example parseInt_examples :
  (parseInt "07", parseInt " 19h", parseInt "-0x1f", parseInt "abc",
   parseInt (before_colon "07:41"))
  = (Some 7, Some 19, Some (-31), None, Some 7).
Proof. reflexivity. Qed.

Example iso_parse_examples :
  (iso_parse "1970-01-01T07:00:00+07:00",
   iso_parse "2025-03-12T07:41:00+07:00",
   iso_parse "2025-02-29T07:41:00+07:00",
   iso_parse "2025-03-12Tab:cd:00+07:00")
  = (Some 0, Some 1741740060000, None, None).
Proof. reflexivity. Qed.

Lemma minBookingTime_value (env : Env) (now B : Z) :
  env_int (BUFFER_MINUTES env) 30 = Some B ->
  Z.abs (now + B * 60000) <= MAX_TIME ->
  minBookingTime env now = Some (now + B * 60000).
Proof.
  intros HB Hr. unfold minBookingTime. rewrite HB. simpl.
  apply Z.leb_le in Hr. rewrite Hr. reflexivity.
Qed.

Lemma maxBookingTime_value (env : Env) (now D : Z) :
  env_int (BOOKING_ADVANCE_DAYS env) 7 = Some D ->
  Z.abs (now + D * 86400000) <= MAX_TIME ->
  maxBookingTime env now = Some (now + D * 86400000).
Proof.
  intros HD Hr. unfold maxBookingTime. rewrite HD. unfold nmul, nadd, new_Date.
  replace (D * 24 * 60 * 60 * 1000) with (D * 86400000) by lia.
  apply Z.leb_le in Hr. rewrite Hr. reflexivity.
Qed.

Section Window.

Variable Date_parse : string -> num.

Lemma request_checked (env : Env) (now : Z) (date time : string) :
  date <> EmptyString -> time <> EmptyString ->
  validateBookingRequest Date_parse env now (request date time)
  = checkWindow Date_parse env now date time.
Proof.
  intros Hd Ht. unfold validateBookingRequest, request. simpl.
  apply String.eqb_neq in Hd, Ht. rewrite Hd, Ht. reflexivity.
Qed.

(** C2.  With [now = T], a buffer of [B] minutes and an advance limit of [D]
    days (both read from the configuration, and such that [T + B] minutes
    and [T + D] days are time values of a Date), for a request whose composed
    string parses to the instant [s]: the too-soon test holds exactly when
    [s < T + B * 60000], the too-far test exactly when
    [s > T + D * 86400000]; the request is answered with the too-soon error
    exactly when the former holds, and with the too-far error exactly when
    the former fails and the latter holds.  At [s = T + B] minutes the request
    is not too soon, one minute earlier it is; at [s = T + D] days it is not
    too far. *)
Theorem booking_window (env : Env) (now : Z) (date time : string) (s B D : Z) :
  date <> EmptyString -> time <> EmptyString ->
  Date_parse (timeString date time) = Some s ->
  env_int (BUFFER_MINUTES env) 30 = Some B ->
  env_int (BOOKING_ADVANCE_DAYS env) 7 = Some D ->
  Z.abs (now + B * 60000) <= MAX_TIME ->
  Z.abs (now + D * 86400000) <= MAX_TIME ->
  let answer := validateBookingRequest Date_parse env now (request date time) in
  (nlt (Some s) (minBookingTime env now) = true <-> s < now + B * 60000) /\
  (ngt (Some s) (maxBookingTime env now) = true <-> s > now + D * 86400000) /\
  (answer = Json 400 false (msgTooSoon (Some B)) <-> s < now + B * 60000) /\
  (answer = Json 400 false (msgTooFar (Some D))
   <-> now + B * 60000 <= s /\ s > now + D * 86400000) /\
  (s = now + B * 60000 -> answer <> Json 400 false (msgTooSoon (Some B))) /\
  (s = now + B * 60000 - 60000 -> answer = Json 400 false (msgTooSoon (Some B))) /\
  (s = now + D * 86400000 -> answer <> Json 400 false (msgTooFar (Some D))).
Proof.
  intros Hd Ht Hs HB HD HrB HrD answer.
  assert (Emin : nlt (Some s) (minBookingTime env now) = (s <? now + B * 60000)).
  { rewrite (minBookingTime_value _ _ _ HB HrB). reflexivity. }
  assert (Emax : ngt (Some s) (maxBookingTime env now)
                 = (now + D * 86400000 <? s)).
  { rewrite (maxBookingTime_value _ _ _ HD HrD). reflexivity. }
  assert (Esoon : answer = Json 400 false (msgTooSoon (Some B))
                  <-> s < now + B * 60000).
  { unfold answer. rewrite (request_checked _ _ _ _ Hd Ht).
    unfold checkWindow. rewrite Hs. cbv [isNaN]. rewrite Emin, Emax, HB, HD.
    destruct (Z.ltb_spec s (now + B * 60000)) as [Hlt | Hge].
    - split; [intros _; exact Hlt | reflexivity].
    - split; [| lia]. intros H.
      destruct (now + D * 86400000 <? s).
      + apply Json_message in H. symmetry in H.
        destruct (tooSoon_not_tooFar _ _ H).
      + destruct (nlt _ _ || nge _ _).
        * apply Json_message in H. symmetry in H.
          destruct (tooSoon_not_hours _ _ _ H).
        * discriminate H. }
  assert (Efar : answer = Json 400 false (msgTooFar (Some D))
                 <-> now + B * 60000 <= s /\ s > now + D * 86400000).
  { unfold answer. rewrite (request_checked _ _ _ _ Hd Ht).
    unfold checkWindow. rewrite Hs. cbv [isNaN]. rewrite Emin, Emax, HB, HD.
    destruct (Z.ltb_spec s (now + B * 60000)) as [Hlt | Hge].
    - split; [| lia]. intros H.
      apply Json_message in H. destruct (tooSoon_not_tooFar _ _ H).
    - destruct (Z.ltb_spec (now + D * 86400000) s) as [Hgt | Hle].
      + split; [intros _; lia | reflexivity].
      + split; [| lia]. intros H.
        destruct (nlt _ _ || nge _ _).
        * apply Json_message in H. symmetry in H.
          destruct (tooFar_not_hours _ _ _ H).
        * discriminate H. }
  split; [rewrite Emin; apply Z.ltb_lt |].
  split; [rewrite Emax, Z.ltb_lt; lia |].
  split; [exact Esoon |]. split; [exact Efar |].
  split; [| split].
  - intros -> H. apply Esoon in H. lia.
  - intros ->. apply Esoon. lia.
  - intros -> H. apply Efar in H. lia.
Qed.

(** C3.  Once the composed string parses and the window tests pass, the
    answer depends on the submitted [booking_time] only through
    [parseInt] of what stands before its first colon, never on the parsed
    instant: the request is answered with the outside-hours error exactly
    when that hour is a number below [workStartHour] or at least
    [workEndHour], and is passed on with the composed start time otherwise.
    With the hours 7 and 19, ["07:00"] is passed on and ["19:00"] is
    rejected. *)
Theorem working_hours (env : Env) (now : Z) (date time : string)
  (s ws we : Z) :
  date <> EmptyString -> time <> EmptyString ->
  Date_parse (timeString date time) = Some s ->
  nlt (Some s) (minBookingTime env now) = false ->
  ngt (Some s) (maxBookingTime env now) = false ->
  env_int (WORK_START_HOUR env) 7 = Some ws ->
  env_int (WORK_END_HOUR env) 19 = Some we ->
  let answer := validateBookingRequest Date_parse env now (request date time) in
  let hour := parseInt (before_colon time) in
  (answer = Json 400 false (msgOutsideHours (Some ws) (Some we))
   <-> exists h, hour = Some h /\ (h < ws \/ h >= we)) /\
  (answer = Next (timeString date time)
   <-> ~ exists h, hour = Some h /\ (h < ws \/ h >= we)) /\
  (ws = 7 -> we = 19 -> time = "07:00" ->
   hour = Some 7 /\ answer = Next (timeString date "07:00")) /\
  (ws = 7 -> we = 19 -> time = "19:00" ->
   hour = Some 19
   /\ answer = Json 400 false (msgOutsideHours (Some 7) (Some 19))).
Proof.
  intros Hd Ht Hs Hmin Hmax Hws Hwe answer hour.
  assert (E : answer
              = if nlt hour (Some ws) || nge hour (Some we)
                then Json 400 false (msgOutsideHours (Some ws) (Some we))
                else Next (timeString date time)).
  { unfold answer. rewrite (request_checked _ _ _ _ Hd Ht).
    unfold checkWindow. rewrite Hs. cbv [isNaN].
    rewrite Hmin, Hmax, Hws, Hwe. reflexivity. }
  assert (T : nlt hour (Some ws) || nge hour (Some we) = true
              <-> exists h, hour = Some h /\ (h < ws \/ h >= we)).
  { destruct hour as [h |]; simpl.
    - rewrite orb_true_iff, Z.ltb_lt, Z.leb_le. split.
      + intros H. exists h. split; [reflexivity | lia].
      + intros (h' & Eh & H). inversion Eh; subst. lia.
    - split; [discriminate |]. intros (h' & Eh & _). discriminate Eh. }
  split; [| split; [| split]].
  - rewrite E. destruct (nlt hour (Some ws) || nge hour (Some we)).
    + split; [intros _; apply T; reflexivity | reflexivity].
    + split; [discriminate |]. intros H. apply T in H. discriminate H.
  - rewrite E. destruct (nlt hour (Some ws) || nge hour (Some we)).
    + split; [discriminate |]. intros H. destruct H. apply T. reflexivity.
    + split; [| reflexivity]. intros _ H. apply T in H. discriminate H.
  - intros -> -> Et. rewrite E. unfold hour. rewrite Et. split; reflexivity.
  - intros -> -> Et. rewrite E. unfold hour. rewrite Et. split; reflexivity.
Qed.

End Window.

(** 2025-03-12T07:41+07:00 asked at 07:11: exactly the buffer ahead. *)
Lemma booking_window_witness :
  validateBookingRequest iso_parse default_env 1741738260000
    (request "2025-03-12" "07:41")
  <> Json 400 false (msgTooSoon (Some 30)).
Proof.
  destruct (booking_window iso_parse default_env 1741738260000
              "2025-03-12" "07:41" 1741740060000 30 7)
    as (_ & _ & _ & _ & H & _ & _);
    [discriminate | discriminate | reflexivity | reflexivity | reflexivity
    | vm_compute; discriminate | vm_compute; discriminate |].
  apply H. reflexivity.
Defined.

(** 2025-03-12T07:00+07:00 (midnight UTC) asked one hour before. *)
Lemma working_hours_witness :
  validateBookingRequest iso_parse default_env 1741734000000
    (request "2025-03-12" "07:00")
  = Next "2025-03-12T07:00:00+07:00".
Proof.
  destruct (working_hours iso_parse default_env 1741734000000
              "2025-03-12" "07:00" 1741737600000 7 19)
    as (_ & _ & H & _);
    [discriminate | discriminate | reflexivity | reflexivity | reflexivity
    | reflexivity | reflexivity |].
  apply H; reflexivity.
Defined.

End BookingFacts.

(** ** Further properties of the block validator *)

Module BlockExtra.
Import JS BlockSchemas BlockFacts.

(** *** Loops that throw *)





Lemma forEach_ext {A E : Type} (f g : A -> outcome (list E)) (l : list A) :
  (forall a, In a l -> f a = g a) -> forEach f l = forEach g l.
Proof.
  induction l as [| a rest IH]; simpl; intros H; [reflexivity |].
  rewrite (H a (or_introl eq_refl)), IH; [reflexivity |].
  intros b Hb. apply H. auto.
Qed.



(** *** The catalog *)

Lemma own_in_catalog (blockType : string) (schema : BlockSchema) :
  BLOCK_SCHEMAS_get blockType = Own schema ->
  In (blockType, schema) BLOCK_SCHEMAS.
Proof.
  unfold BLOCK_SCHEMAS_get.
  assert (G : forall l, assoc blockType l = Some schema ->
                        In (blockType, schema) l).
  { induction l as [| [k a] rest IH]; simpl; intros H; [discriminate H |].
    destruct (String.eqb_spec k blockType) as [-> |].
    - inversion H; subst. auto.
    - auto. }
  destruct (assoc blockType BLOCK_SCHEMAS) as [sch |] eqn:Ha.
  - intros H. inversion H; subst. apply G. exact Ha.
  - destruct (existsb _ _); discriminate.
Qed.


(** *** The errors of a catalog type, exactly *)

(** X1.  For a type of the catalog, when [validateBlock] returns, its errors
    are the messages of a list of errors that holds exactly the justified
    ones: an error is reported if and only if its condition ([justified])
    holds for the payload. *)
Theorem errors_exactly_justified (blockType : string) (schema : BlockSchema)
  (blockData : value) (r : ValidationResult) :
  BLOCK_SCHEMAS_get blockType = Own schema ->
  validateBlock blockType blockData = Ok r ->
  exists es,
    errors r = map render es /\
    forall e, In e es <-> justified (fields schema) blockData e.
Proof.
  intros Hown Hr.
  destruct (validateBlock_own _ _ _ _ Hown Hr) as (es & Hes & Herr & _).
  exists es. split; [exact Herr |]. intros e. split.
  - apply checkFields_sound. exact Hes.
  - apply checkFields_complete. exact Hes.
Qed.

Lemma errors_exactly_justified_witness :
  exists es,
    ["subservices[0].price (Giá (VNĐ)) là bắt buộc"] = map render es /\
    forall e, In e es <-> justified (fields pricing_schema) unpriced_block e.
Proof.
  apply (errors_exactly_justified "pricing" pricing_schema unpriced_block
           {| valid := false;
              errors := ["subservices[0].price (Giá (VNĐ)) là bắt buộc"] |});
    reflexivity.
Defined.

(** X2.  For a type of the catalog, when [validateBlock] returns, [valid] is
    true exactly when every field of the schema passes its rule
    ([field_ok]): required values are not empty; under a rule of type array
    a truthy value is a sequence, and a sequence respects the configured
    bounds and each item passes the item schema.  (A falsy value that is not
    empty, such as 0 or false, passes a rule of type array.) *)
Theorem valid_iff_fields_ok (blockType : string) (schema : BlockSchema)
  (blockData : value) (r : ValidationResult) :
  BLOCK_SCHEMAS_get blockType = Own schema ->
  validateBlock blockType blockData = Ok r ->
  (valid r = true <->
   forall fieldName fieldConfig v,
     In (fieldName, fieldConfig) (fields schema) ->
     get blockData fieldName = Ok v ->
     field_ok fieldConfig v).
Proof.
  intros Hown Hr.
  destruct (validateBlock_own _ _ _ _ Hown Hr) as (es & Hes & _ & Hvalid).
  rewrite Hvalid. split.
  - intros Hlen. assert (E : es = []) by (destruct es; [reflexivity | discriminate]).
    subst es.
    assert (No : forall e, ~ justified (fields schema) blockData e).
    { intros e J. exact (checkFields_complete _ _ _ _ Hes J). }
    intros f c v Hin Hget. split.
    + intros Hreq. destruct (isEmpty v) eqn:He; [| reflexivity].
      exfalso. eapply No. eapply by_required; eauto.
    + intros Hty. split.
      * intros Ht. destruct (isArray v) eqn:Ha; [reflexivity |].
        exfalso. eapply No. eapply by_shape; eauto.
      * intros items ->. split; [| split].
        -- intros m Hc.
           destruct (Z.lt_ge_cases (Z.of_nat (List.length items)) m) as [Hlt |];
             [| assumption].
           exfalso. eapply No. eapply by_min_items; eauto.
        -- intros m Hc.
           destruct (Z.lt_ge_cases m (Z.of_nat (List.length items))) as [Hlt |];
             [| assumption].
           exfalso. eapply No. eapply by_max_items; eauto. lia.
        -- intros sch item Hsch Hitem s sc sv Hs Hsv.
           destruct (In_nth_error _ _ Hitem) as (index & Hnth). split.
           ++ intros Hreq. destruct (isEmpty sv) eqn:He; [| reflexivity].
              exfalso. eapply No. eapply by_sub_required; eauto.
           ++ intros Hnum n m -> Hm.
              destruct (num_lt_int n m) eqn:Hlt; [| reflexivity].
              exfalso. eapply No. eapply by_sub_min; eauto.
  - intros Hok. destruct es as [| e rest]; [reflexivity |]. exfalso.
    pose proof (checkFields_sound _ _ _ _ Hes (or_introl eq_refl)) as J.
    inversion J; subst;
      match goal with
      | Hin : In (?f, ?c) (fields schema), Hg : get blockData ?f = Ok ?v |- _ =>
          destruct (Hok f c v Hin Hg) as [Hreq Harr]
      end.
    + specialize (Hreq ltac:(assumption)). congruence.
    + destruct (Harr ltac:(assumption)) as [Hshape _].
      specialize (Hshape ltac:(assumption)). congruence.
    + destruct (Harr ltac:(assumption)) as [_ Hseq].
      destruct (Hseq _ eq_refl) as (Hmin & _ & _).
      match goal with Hc : configured _ = Some _ |- _ => apply Hmin in Hc end.
      lia.
    + destruct (Harr ltac:(assumption)) as [_ Hseq].
      destruct (Hseq _ eq_refl) as (_ & Hmax & _).
      match goal with Hc : configured _ = Some _ |- _ => apply Hmax in Hc end.
      lia.
    + destruct (Harr ltac:(assumption)) as [_ Hseq].
      destruct (Hseq _ eq_refl) as (_ & _ & Hitems).
      match goal with
      | Hs : itemSchema _ = Some ?sch, Hn : nth_error _ _ = Some ?it,
        Hi : In (?s, ?sc) ?sch, Hg : get ?it ?s = Ok ?sv,
        He : isEmpty ?sv = true |- _ =>
          destruct (Hitems _ _ Hs (nth_error_In _ _ Hn) _ _ _ Hi Hg) as [Hq _];
          specialize (Hq ltac:(assumption)); congruence
      end.
    + destruct (Harr ltac:(assumption)) as [_ Hseq].
      destruct (Hseq _ eq_refl) as (_ & _ & Hitems).
      match goal with
      | Hs : itemSchema _ = Some ?sch, Hn : nth_error _ _ = Some ?it,
        Hi : In (?s, ?sc) ?sch, Hg : get ?it ?s = Ok (VNum ?n),
        Hm : min ?sc = Some ?m, Hl : num_lt_int ?n ?m = true |- _ =>
          destruct (Hitems _ _ Hs (nth_error_In _ _ Hn) _ _ _ Hi Hg) as [_ Hb];
          rewrite (Hb ltac:(assumption) n m eq_refl Hm) in Hl; discriminate
      end.
Qed.

Lemma valid_iff_fields_ok_witness :
  field_ok (field "text" "Tiêu đề (H1)" true) (VNum (Fin 42)).
Proof.
  apply (proj1 (valid_iff_fields_ok "intro" intro_schema odd_intro_block
                  {| valid := true; errors := [] |} eq_refl eq_refl)
           eq_refl "title");
    [left; reflexivity | reflexivity].
Defined.

(** *** When [validateBlock] throws *)




(** *** Unknown types *)





(** *** Properties the schema does not name *)

(** X5.  For a type of the catalog, the outcome of [validateBlock] depends on
    the payload only through the values of the fields the schema names: two
    payloads that read alike on those fields get the same outcome, so
    properties the schema does not name are never rejected. *)
Theorem unnamed_properties_ignored (blockType : string) (schema : BlockSchema)
  (d1 d2 : value) :
  BLOCK_SCHEMAS_get blockType = Own schema ->
  (forall fieldName fieldConfig,
      In (fieldName, fieldConfig) (fields schema) ->
      get d1 fieldName = get d2 fieldName) ->
  validateBlock blockType d1 = validateBlock blockType d2.
Proof.
  intros Hown H. unfold validateBlock. rewrite Hown.
  assert (E : checkFields (fields schema) d1 = checkFields (fields schema) d2).
  { unfold checkFields. apply forEach_ext. intros [f c] Hin.
    unfold checkField. rewrite (H f c Hin). reflexivity. }
  rewrite E. reflexivity.
Qed.

Lemma unnamed_properties_ignored_witness :
  validateBlock "pricing" unpriced_block
  = validateBlock "pricing" unpriced_block_with_extras.
Proof.
  apply (unnamed_properties_ignored "pricing" pricing_schema);
    [reflexivity |].
  intros f c Hin. simpl in Hin.
  destruct Hin as [E | [E | [E | []]]]; inversion E; subst; reflexivity.
Defined.

(** *** Messages identify errors *)

Lemma numeral_sep (d1 d2 : Decimal.uint) (x y : string) :
  NilEmpty.string_of_uint d1 ++ String "]" x
  = NilEmpty.string_of_uint d2 ++ String "]" y ->
  d1 = d2 /\ x = y.
Proof.
  revert d2. induction d1; destruct d2;
    cbn [NilEmpty.string_of_uint append]; intros H;
    try discriminate H;
    injection H as H; try (split; [reflexivity | exact H]);
    destruct (IHd1 _ H) as [-> ->]; split; reflexivity.
Qed.

Lemma show_nat_numeral (i : nat) :
  show_nat i = NilEmpty.string_of_uint (Nat.to_uint i).
Proof.
  unfold show_nat. destruct (Nat.to_uint i) eqn:E; try reflexivity.
  exfalso. assert (Z : i = 0%nat).
  { rewrite <- (DecimalNat.Unsigned.of_to i), E. reflexivity. }
  subst i. discriminate E.
Qed.

Lemma index_sep (i j : nat) (x y : string) :
  show_nat i ++ String "]" x = show_nat j ++ String "]" y ->
  i = j /\ x = y.
Proof.
  rewrite !show_nat_numeral. intros H.
  destruct (numeral_sep _ _ _ _ H) as [E ->].
  apply DecimalNat.Unsigned.to_uint_inj in E. auto.
Qed.

(** List the errors a justification allows for a schema of the catalog. *)
Ltac enum_fields Hin :=
  simpl in Hin;
  repeat (destruct Hin as [Hin | Hin];
          [inversion Hin; subst; clear Hin |]);
  try contradiction.

Ltac prune :=
  repeat match goal with
         | H : type _ = _ |- _ => simpl in H; first [discriminate H | clear H]
         | H : required _ = true |- _ =>
             simpl in H; first [discriminate H | clear H]
         | H : configured _ = Some _ |- _ =>
             simpl in H; first [discriminate H | injection H as H; subst]
         | H : min _ = Some _ |- _ =>
             simpl in H; first [discriminate H | injection H as H; subst]
         | H : itemSchema _ = Some _ |- _ =>
             simpl in H; first [discriminate H | injection H as H; subst]
         end.

Ltac enum_justified J :=
  inversion J; subst; clear J;
  match goal with
  | Hin : In (_, _) (fields _) |- _ => enum_fields Hin
  end;
  match goal with
  | H : itemSchema _ = Some _ |- _ =>
      simpl in H; first [discriminate H | injection H as H; subst]
  | _ => idtac
  end;
  try match goal with
      | Hin : In (_, _) (_ :: _) |- _ => enum_fields Hin
      end;
  prune.

(** Peel equal leading characters off an equation between messages. *)
Ltac peel H :=
  repeat first
    [ discriminate H
    | match type of H with
      | String _ _ = String _ _ => injection H as H
      end ].

Ltac same_message H :=
  simpl in H; peel H;
  first
    [ reflexivity
    | match type of H with
      | show_nat _ ++ String "]" _ = show_nat _ ++ String "]" _ =>
          let E := fresh "E" in
          destruct (index_sep _ _ _ _ H) as [-> E];
          first [ discriminate E | reflexivity ]
      end ].

Lemma render_inj_in (schema : BlockSchema) (blockData : value)
  (e1 e2 : event) :
  In schema (map snd BLOCK_SCHEMAS) ->
  justified (fields schema) blockData e1 ->
  justified (fields schema) blockData e2 ->
  render e1 = render e2 ->
  e1 = e2.
Proof.
  intros Hs J1 J2 H. simpl in Hs.
  repeat (destruct Hs as [Hs | Hs]; [subst schema |]); [.. | contradiction];
    enum_justified J1; enum_justified J2; same_message H.
Qed.

(** X12.  For a type of the catalog, when [validateBlock] returns, every
    message of [errors] stands for exactly one error: a message is in the
    list if and only if it is the rendering of a justified error, and two
    justified errors with the same message are the same error (same field,
    item index and sub-field). *)
Theorem messages_identify_errors (blockType : string) (schema : BlockSchema)
  (blockData : value) (r : ValidationResult) :
  BLOCK_SCHEMAS_get blockType = Own schema ->
  validateBlock blockType blockData = Ok r ->
  forall m,
    In m (errors r)
    <-> exists! e, justified (fields schema) blockData e /\ render e = m.
Proof.
  intros Hown Hr m.
  destruct (validateBlock_own _ _ _ _ Hown Hr) as (es & Hes & Herr & _).
  assert (Hs : In schema (map snd BLOCK_SCHEMAS)).
  { apply own_in_catalog in Hown.
    apply (in_map snd) in Hown. exact Hown. }
  rewrite Herr. split.
  - intros Hin. apply in_map_iff in Hin. destruct Hin as (e & Hm & He).
    exists e. split.
    + split; [eapply checkFields_sound; eauto | exact Hm].
    + intros e' [J' Hm'].
      eapply render_inj_in; eauto.
      * eapply checkFields_sound; eauto.
      * congruence.
  - intros (e & [J Hm] & _). apply in_map_iff. exists e.
    split; [exact Hm |]. eapply checkFields_complete; eauto.
Qed.

Lemma messages_identify_errors_witness :
  In "subservices[0].price (Giá (VNĐ)) là bắt buộc"
    ["subservices[0].price (Giá (VNĐ)) là bắt buộc"]
  <-> exists! e,
        justified (fields pricing_schema) unpriced_block e /\
        render e = "subservices[0].price (Giá (VNĐ)) là bắt buộc".
Proof.
  apply (messages_identify_errors "pricing" pricing_schema unpriced_block
           {| valid := false;
              errors := ["subservices[0].price (Giá (VNĐ)) là bắt buộc"] |});
    reflexivity.
Defined.

(** *** How many errors *)

Lemma forEach_length {A E : Type} (f : A -> outcome (list E)) (b : A -> nat)
  (l : list A) (es : list E) :
  (forall a es', In a l -> f a = Ok es' -> (List.length es' <= b a)%nat) ->
  forEach f l = Ok es ->
  (List.length es <= list_sum (map b l))%nat.
Proof.
  revert es. induction l as [| a rest IH]; simpl; intros es Hb H.
  - inversion H; subst. simpl. lia.
  - apply bind_Ok in H. destruct H as (es1 & Hf & H).
    apply bind_Ok in H. destruct H as (es2 & Hrest & H).
    inversion H; subst. rewrite length_app.
    pose proof (Hb a es1 (or_introl eq_refl) Hf).
    assert ((List.length es2 <= list_sum (map b rest))%nat).
    { apply IH; [| exact Hrest]. intros; eapply Hb; eauto. }
    lia.
Qed.

Lemma forEachFrom_length {A E : Type} (f : A -> nat -> outcome (list E))
  (c : nat) (l : list A) (i : nat) (es : list E) :
  (forall a k es', f a k = Ok es' -> (List.length es' <= c)%nat) ->
  forEachFrom f i l = Ok es ->
  (List.length es <= List.length l * c)%nat.
Proof.
  revert i es. induction l as [| a rest IH]; simpl; intros i es Hc H.
  - inversion H; subst. simpl. lia.
  - apply bind_Ok in H. destruct H as (es1 & Hf & H).
    apply bind_Ok in H. destruct H as (es2 & Hrest & H).
    inversion H; subst. rewrite length_app.
    pose proof (Hc a i es1 Hf). pose proof (IH _ _ Hc Hrest). lia.
Qed.

(** A sub-field of an item gives at most one error: the required error and
    the minimum error exclude each other. *)
Lemma sub_field_one_error (fieldName : string) (index : nat)
  (subFieldName : string) (subFieldConfig : FieldRule) (subValue : value) :
  (List.length
     (checkSubRequired fieldName index subFieldName subFieldConfig subValue
      ++ checkSubMin fieldName index subFieldName subFieldConfig subValue)
   <= 1)%nat.
Proof.
  unfold checkSubRequired, checkSubMin, isEmpty.
  destruct (required subFieldConfig);
    destruct (String.eqb (type subFieldConfig) "number");
    destruct subValue as [| | b | n | str | items | props]; simpl;
    repeat match goal with
           | |- context [match ?x with _ => _ end] => destruct x; simpl
           | |- context [if ?x then _ else _] => destruct x; simpl
           end;
    lia.
Qed.

Lemma list_sum_ones {A : Type} (l : list A) :
  list_sum (map (fun _ => 1%nat) l) = List.length l.
Proof. induction l; simpl; auto. Qed.

Lemma checkItem_length (fieldName : string) (sch : list (string * FieldRule))
  (item : value) (index : nat) (es : list event) :
  checkItem fieldName sch item index = Ok es ->
  (List.length es <= List.length sch)%nat.
Proof.
  unfold checkItem. intros H. rewrite <- (list_sum_ones sch).
  eapply forEach_length; [| exact H].
  intros [s c] es' _ Hf. apply bind_Ok in Hf. destruct Hf as (sv & _ & Hf).
  inversion Hf; subst. apply sub_field_one_error.
Qed.

Lemma checkField_length (blockData : value) (entry : string * FieldRule)
  (es : list event) :
  checkField blockData entry = Ok es ->
  (List.length es <= error_budget blockData entry)%nat.
Proof.
  destruct entry as [f c]. unfold checkField, error_budget. simpl fst. simpl snd.
  intros H. apply bind_Ok in H. destruct H as (v & Hget & H). rewrite Hget.
  destruct (required c && (isEmpty v && ne_zero v && ne_false v)).
  { inversion H; subst. simpl.
    destruct v; try lia; destruct (String.eqb (type c) "array"); lia. }
  destruct (String.eqb (type c) "array") eqn:Hty.
  2:{ inversion H; subst. simpl. destruct v; lia. }
  unfold checkArray in H.
  destruct (truthy v && negb (isArray v)) eqn:Hs.
  { inversion H; subst. simpl. destruct v; lia. }
  destruct v; try (inversion H; subst; simpl; lia).
  apply bind_Ok in H. destruct H as (ies & Hitems & H). inversion H; subst.
  rewrite !length_app.
  assert (B1 : (List.length (checkMinItems f c (List.length items)) <= 1)%nat).
  { unfold checkMinItems. destruct (configured (minItems c)); simpl; [| lia].
    destruct (_ <? _); simpl; lia. }
  assert (B2 : (List.length (checkMaxItems f c (List.length items)) <= 1)%nat).
  { unfold checkMaxItems. destruct (configured (maxItems c)); simpl; [| lia].
    destruct (_ >? _); simpl; lia. }
  assert (B3 : (List.length ies
                <= List.length items
                   * match itemSchema c with
                     | Some sch => List.length sch
                     | None => 0
                     end)%nat).
  { unfold checkItems in Hitems. destruct (itemSchema c) as [sch |].
    - eapply forEachFrom_length; [| exact Hitems].
      intros a k es' Hk. eapply checkItem_length; eauto.
    - inversion Hitems; subst. simpl. lia. }
  lia.
Qed.

(** X6.  For a type of the catalog, when [validateBlock] returns, the number
    of errors is at most the sum over the fields of the schema of one error
    per field, or, for a sequence under a rule of type array, of two
    cardinality errors plus one error per item and sub-field of the item
    schema (a sub-field never gets both a required and a minimum error). *)
Theorem errors_bounded (blockType : string) (schema : BlockSchema)
  (blockData : value) (r : ValidationResult) :
  BLOCK_SCHEMAS_get blockType = Own schema ->
  validateBlock blockType blockData = Ok r ->
  (List.length (errors r)
   <= list_sum (map (error_budget blockData) (fields schema)))%nat.
Proof.
  intros Hown Hr.
  destruct (validateBlock_own _ _ _ _ Hown Hr) as (es & Hes & Herr & _).
  rewrite Herr, length_map. unfold checkFields in Hes.
  eapply forEach_length; [| exact Hes].
  intros entry es' _ Hf. apply checkField_length. exact Hf.
Qed.

Lemma errors_bounded_witness :
  (List.length ["subservices[0].price (Giá (VNĐ)) là bắt buộc"] <= 7)%nat.
Proof.
  apply (errors_bounded "pricing" pricing_schema unpriced_block
           {| valid := false;
              errors := ["subservices[0].price (Giá (VNĐ)) là bắt buộc"] |});
    reflexivity.
Defined.

End BlockExtra.

(** ** Further properties of the booking request validator *)

Module BookingExtra.
Import JS BookingValidator BookingFacts.

Lemma missing_not_invalid : msgMissing <> msgInvalidTime.
Proof. unfold msgMissing, msgInvalidTime. discriminate. Qed.

Lemma missing_not_system : msgMissing <> msgSystem.
Proof. unfold msgMissing, msgSystem. discriminate. Qed.

Lemma missing_not_tooSoon (a : num) : msgMissing <> msgTooSoon a.
Proof. unfold msgMissing, msgTooSoon. simpl. discriminate. Qed.

Lemma missing_not_tooFar (a : num) : msgMissing <> msgTooFar a.
Proof. unfold msgMissing, msgTooFar. simpl. discriminate. Qed.

Lemma missing_not_hours (a b : num) : msgMissing <> msgOutsideHours a b.
Proof. unfold msgMissing, msgOutsideHours. simpl. discriminate. Qed.

Lemma invalid_not_system : msgInvalidTime <> msgSystem.
Proof. unfold msgInvalidTime, msgSystem. discriminate. Qed.

Lemma invalid_not_tooSoon (a : num) : msgInvalidTime <> msgTooSoon a.
Proof. unfold msgInvalidTime, msgTooSoon. simpl. discriminate. Qed.

Lemma invalid_not_tooFar (a : num) : msgInvalidTime <> msgTooFar a.
Proof. unfold msgInvalidTime, msgTooFar. simpl. discriminate. Qed.

Lemma invalid_not_hours (a b : num) : msgInvalidTime <> msgOutsideHours a b.
Proof. unfold msgInvalidTime, msgOutsideHours. simpl. discriminate. Qed.

Lemma system_not_tooSoon (a : num) : msgSystem <> msgTooSoon a.
Proof. unfold msgSystem, msgTooSoon. simpl. discriminate. Qed.

Lemma system_not_tooFar (a : num) : msgSystem <> msgTooFar a.
Proof. unfold msgSystem, msgTooFar. simpl. discriminate. Qed.

Lemma system_not_hours (a b : num) : msgSystem <> msgOutsideHours a b.
Proof. unfold msgSystem, msgOutsideHours. simpl. discriminate. Qed.

(** Close a goal from an equation between two different answers. *)
Ltac clash E :=
  first
    [ exact (missing_not_invalid E) | exact (missing_not_system E)
    | exact (missing_not_tooSoon _ E) | exact (missing_not_tooFar _ E)
    | exact (missing_not_hours _ _ E) | exact (invalid_not_system E)
    | exact (invalid_not_tooSoon _ E) | exact (invalid_not_tooFar _ E)
    | exact (invalid_not_hours _ _ E) | exact (system_not_tooSoon _ E)
    | exact (system_not_tooFar _ E) | exact (system_not_hours _ _ E)
    | exact (tooSoon_not_tooFar _ _ E) | exact (tooSoon_not_hours _ _ _ E)
    | exact (tooFar_not_hours _ _ _ E) ].

Ltac absurd_answer H :=
  exfalso;
  first
    [ discriminate H
    | apply Json_message in H; first [ clash H | clash (eq_sym H) ] ].

Section Answers.

Variable Date_parse : string -> num.

(** The answers [checkWindow] can give. *)
Lemma checkWindow_cases (env : Env) (now : Z) (date time : string) :
  let a := checkWindow Date_parse env now date time in
  (a = Json 400 false msgInvalidTime /\ Date_parse (timeString date time) = None)
  \/ (Date_parse (timeString date time) <> None /\
      (a = Json 400 false (msgTooSoon (env_int (BUFFER_MINUTES env) 30))
       \/ a = Json 400 false (msgTooFar (env_int (BOOKING_ADVANCE_DAYS env) 7))
       \/ a = Json 400 false
                (msgOutsideHours (env_int (WORK_START_HOUR env) 7)
                   (env_int (WORK_END_HOUR env) 19))
       \/ a = Next (timeString date time))).
Proof.
  unfold checkWindow.
  destruct (Date_parse (timeString date time)) as [s |]; simpl isNaN; cbv iota.
  - right. split; [discriminate |].
    destruct (nlt _ _); [auto |].
    destruct (ngt _ _); [auto |].
    destruct (_ || _); auto.
  - left. auto.
Qed.

(** The three ways a request is handled. *)
Lemma request_cases (env : Env) (now : Z) (body : option Body) :
  let a := validateBookingRequest Date_parse env now body in
  (body = None /\ a = Json 500 false msgSystem)
  \/ (exists b, body = Some b /\
        (booking_data b = None \/
         exists bd, booking_data b = Some bd /\
           missing (booking_date bd) || missing (booking_time bd) = true) /\
        a = Json 400 false msgMissing)
  \/ (exists b bd, body = Some b /\ booking_data b = Some bd /\
        missing (booking_date bd) || missing (booking_time bd) = false /\
        a = checkWindow Date_parse env now (text (booking_date bd))
              (text (booking_time bd))).
Proof.
  unfold validateBookingRequest. destruct body as [b |]; [| auto].
  right. destruct (booking_data b) as [bd |] eqn:Hbd.
  - destruct (missing (booking_date bd) || missing (booking_time bd)) eqn:Hm.
    + left. exists b. split; [reflexivity |]. split; [| reflexivity].
      right. exists bd. auto.
    + right. exists b, bd. auto.
  - left. exists b. auto.
Qed.

Lemma parsed_agrees (env : Env) (now : Z) (body : option Body) :
  validateSubmitted Date_parse env now (parsed body)
  = validateBookingRequest Date_parse env now body.
Proof.
  destruct body as [b |]; [| reflexivity].
  destruct b as [bdata]. destruct bdata as [bd |]; [| reflexivity].
  destruct bd as [d t]. unfold parsed, validateSubmitted, validateBookingRequest.
  cbn [booking_data booking_date booking_time date_value time_value].
  destruct d as [d |], t as [t |]; cbn [submitted_of falsy missing orb];
    try reflexivity.
  destruct (String.eqb d EmptyString); reflexivity.
Qed.

Lemma checkSubmitted_cases (env : Env) (now : Z) (date time : string)
  (str : bool) :
  let a := checkSubmitted Date_parse env now date time str in
  (a = Json 400 false msgInvalidTime /\ Date_parse (timeString date time) = None
   /\ in_window Date_parse env now date time = false)
  \/ (Date_parse (timeString date time) <> None /\
      in_window Date_parse env now date time = false /\
      (a = Json 400 false (msgTooSoon (env_int (BUFFER_MINUTES env) 30))
       \/ a = Json 400 false (msgTooFar (env_int (BOOKING_ADVANCE_DAYS env) 7))))
  \/ (Date_parse (timeString date time) <> None /\
      in_window Date_parse env now date time = true /\
      str = true /\
      (a = Json 400 false
             (msgOutsideHours (env_int (WORK_START_HOUR env) 7)
                (env_int (WORK_END_HOUR env) 19))
       \/ a = Next (timeString date time)))
  \/ (Date_parse (timeString date time) <> None /\
      in_window Date_parse env now date time = true /\
      str = false /\ a = Json 500 false msgSystem).
Proof.
  unfold checkSubmitted, in_window.
  destruct (Date_parse (timeString date time)) as [s |]; simpl isNaN; cbv iota.
  - right.
    destruct (nlt _ _).
    + left. split; [discriminate | auto].
    + destruct (ngt _ _).
      * left. split; [discriminate | auto].
      * right. destruct str.
        -- left. split; [discriminate |]. split; [reflexivity |].
           split; [reflexivity |]. destruct (_ || _); auto.
        -- right. split; [discriminate |]. auto.
  - left. auto.
Qed.

Lemma submitted_cases (env : Env) (now : Z) (body : option (option Submission)) :
  let a := validateSubmitted Date_parse env now body in
  (body = None /\ a = Json 500 false msgSystem)
  \/ (body = Some None /\ a = Json 400 false msgMissing)
  \/ (exists sub, body = Some (Some sub) /\
         falsy (date_value sub) || falsy (time_value sub) = true /\
         a = Json 400 false msgMissing)
  \/ (exists sub, body = Some (Some sub) /\
         falsy (date_value sub) || falsy (time_value sub) = false /\
         (shown (date_value sub) = None \/ shown (time_value sub) = None) /\
         a = Json 500 false msgSystem)
  \/ (exists sub date time, body = Some (Some sub) /\
         falsy (date_value sub) || falsy (time_value sub) = false /\
         shown (date_value sub) = Some date /\
         shown (time_value sub) = Some time /\
         a = checkSubmitted Date_parse env now date time
               (isString (time_value sub))).
Proof.
  unfold validateSubmitted. destruct body as [[sub |] |]; [| auto | auto].
  right. right.
  destruct (falsy (date_value sub) || falsy (time_value sub)) eqn:Hf.
  - left. exists sub. auto.
  - right. destruct (shown (date_value sub)) as [date |] eqn:Hd.
    + destruct (shown (time_value sub)) as [time |] eqn:Ht.
      * right. exists sub, date, time. auto.
      * left. exists sub. auto.
    + left. exists sub. auto.
Qed.

Ltac same_body :=
  repeat match goal with
         | H : Some _ = Some _ |- _ => inversion H; subst; clear H
         | H : ?b = Some _, H' : ?b = Some _ |- _ =>
             rewrite H in H'; inversion H'; subst; clear H'
         | H : ?b = Some _, H' : ?b = None |- _ =>
             rewrite H in H'; discriminate H'
         | H : ?x = true, H' : ?x = false |- _ =>
             rewrite H in H'; discriminate H'
         end.

(** X7.  For any parsed body, whatever JSON values it holds as
    [booking_date] and [booking_time]: the answer is the 500 system error
    exactly when the request has no body, or both values are truthy and
    either one of them cannot be turned into text, or [booking_time] is not
    a string (a number, [true], an array, an object) and the composed text
    parses and lies in the window: the hour cannot be taken from it.  The
    answer is the 400 missing-information error exactly when [booking_data]
    or one of the two values is falsy (absent, [null], [false], [0] or the
    empty string), whatever the clock and the configuration; the 400
    invalid-time error exactly when both values are truthy and the composed
    text does not parse.  A JSON answer always has [success = false] and
    status 400 or 500.  On a body whose two fields are strings or absent the
    answer is the one of [validateBookingRequest]. *)
Theorem answers_classified (env : Env) (now : Z)
  (body : option (option Submission)) :
  let a := validateSubmitted Date_parse env now body in
  (a = Json 500 false msgSystem
   <-> body = None
       \/ exists sub, body = Some (Some sub) /\
             falsy (date_value sub) || falsy (time_value sub) = false /\
             (shown (date_value sub) = None
              \/ shown (time_value sub) = None
              \/ exists date time,
                    shown (date_value sub) = Some date /\
                    shown (time_value sub) = Some time /\
                    isString (time_value sub) = false /\
                    in_window Date_parse env now date time = true)) /\
  (a = Json 400 false msgMissing
   <-> body = Some None
       \/ exists sub, body = Some (Some sub) /\
             falsy (date_value sub) || falsy (time_value sub) = true) /\
  (a = Json 400 false msgInvalidTime
   <-> exists sub date time, body = Some (Some sub) /\
         falsy (date_value sub) || falsy (time_value sub) = false /\
         shown (date_value sub) = Some date /\
         shown (time_value sub) = Some time /\
         Date_parse (timeString date time) = None) /\
  (forall st ok m, a = Json st ok m -> ok = false /\ (st = 400 \/ st = 500)) /\
  (forall b : option Body,
      body = parsed b -> a = validateBookingRequest Date_parse env now b).
Proof.
  intros a.
  assert (Agree : forall b : option Body,
             body = parsed b -> a = validateBookingRequest Date_parse env now b).
  { intros b ->. apply parsed_agrees. }
  destruct (submitted_cases env now body)
    as [(Hb & Ha) | [(Hb & Ha) | [(sub & Hb & Hf & Ha)
       | [(sub & Hb & Hf & Hs & Ha) | (sub & date & time & Hb & Hf & Hd & Ht & Ha)]]]];
    fold a in Ha.
  - (* no body *)
    split; [| split; [| split; [| split]]]; [| | | | exact Agree].
    + split; auto.
    + split.
      * intros H. rewrite Ha in H. absurd_answer H.
      * intros [H | (sub & H & _)]; congruence.
    + split.
      * intros H. rewrite Ha in H. absurd_answer H.
      * intros (sub & d & t & H & _). congruence.
    + intros st ok m H. rewrite Ha in H. inversion H; subst. auto.
  - (* no booking_data *)
    split; [| split; [| split; [| split]]]; [| | | | exact Agree].
    + split.
      * intros H. rewrite Ha in H. absurd_answer H.
      * intros [H | (sub & H & _)]; congruence.
    + split; auto.
    + split.
      * intros H. rewrite Ha in H. absurd_answer H.
      * intros (sub & d & t & H & _). congruence.
    + intros st ok m H. rewrite Ha in H. inversion H; subst. auto.
  - (* a falsy field *)
    split; [| split; [| split; [| split]]]; [| | | | exact Agree].
    + split.
      * intros H. rewrite Ha in H. absurd_answer H.
      * intros [H | (sub' & H & Hf' & _)]; [congruence |]. same_body.
    + split; [| auto]. intros _. right. exists sub. auto.
    + split.
      * intros H. rewrite Ha in H. absurd_answer H.
      * intros (sub' & d & t & H & Hf' & _). same_body.
    + intros st ok m H. rewrite Ha in H. inversion H; subst. auto.
  - (* a conversion throws *)
    split; [| split; [| split; [| split]]]; [| | | | exact Agree].
    + split; [| auto]. intros _. right. exists sub.
      split; [exact Hb |]. split; [exact Hf |]. destruct Hs; auto.
    + split.
      * intros H. rewrite Ha in H. absurd_answer H.
      * intros [H | (sub' & H & Hf')]; [congruence |]. same_body.
    + split.
      * intros H. rewrite Ha in H. absurd_answer H.
      * intros (sub' & d & t & H & Hf' & Hd & Ht & _). same_body.
        destruct Hs; congruence.
    + intros st ok m H. rewrite Ha in H. inversion H; subst. auto.
  - (* both texts are there *)
    destruct (checkSubmitted_cases env now date time (isString (time_value sub)))
      as [(Hw & Hp & Hiw) | [(Hp & Hiw & Hw) | [(Hp & Hiw & Hstr & Hw)
         | (Hp & Hiw & Hstr & Hw)]]];
      cbv zeta in Hw; rewrite <- Ha in Hw.
    + (* the date does not parse *)
      split; [| split; [| split; [| split]]]; [| | | | exact Agree].
      * split.
        -- intros H. rewrite Hw in H. absurd_answer H.
        -- intros [H | (sub' & H & Hf' & [H1 | [H1 | (d & t & Hd' & Ht' & _ & Hi)]])];
             [congruence | | |]; same_body; congruence.
      * split.
        -- intros H. rewrite Hw in H. absurd_answer H.
        -- intros [H | (sub' & H & Hf')]; [congruence |]. same_body.
      * split; [| auto]. intros _. exists sub, date, time. auto.
      * intros st ok m H. rewrite Hw in H. inversion H; subst. auto.
    + (* too soon or too far *)
      split; [| split; [| split; [| split]]]; [| | | | exact Agree].
      * split.
        -- intros H. destruct Hw as [Hw | Hw]; rewrite Hw in H; absurd_answer H.
        -- intros [H | (sub' & H & Hf' & [H1 | [H1 | (d & t & Hd' & Ht' & _ & Hi)]])];
             [congruence | | |]; same_body; congruence.
      * split.
        -- intros H. destruct Hw as [Hw | Hw]; rewrite Hw in H; absurd_answer H.
        -- intros [H | (sub' & H & Hf')]; [congruence |]. same_body.
      * split.
        -- intros H. destruct Hw as [Hw | Hw]; rewrite Hw in H; absurd_answer H.
        -- intros (sub' & d & t & H & Hf' & Hd' & Ht' & Hn). same_body.
           congruence.
      * intros st ok m H.
        destruct Hw as [Hw | Hw]; rewrite Hw in H; inversion H; subst; auto.
    + (* the time is a string *)
      split; [| split; [| split; [| split]]]; [| | | | exact Agree].
      * split.
        -- intros H. destruct Hw as [Hw | Hw]; rewrite Hw in H; absurd_answer H.
        -- intros [H | (sub' & H & Hf' & [H1 | [H1 | (d & t & Hd' & Ht' & Hs' & Hi)]])];
             [congruence | | |]; same_body; congruence.
      * split.
        -- intros H. destruct Hw as [Hw | Hw]; rewrite Hw in H; absurd_answer H.
        -- intros [H | (sub' & H & Hf')]; [congruence |]. same_body.
      * split.
        -- intros H. destruct Hw as [Hw | Hw]; rewrite Hw in H; absurd_answer H.
        -- intros (sub' & d & t & H & Hf' & Hd' & Ht' & Hn). same_body.
           congruence.
      * intros st ok m H.
        destruct Hw as [Hw | Hw]; rewrite Hw in H; inversion H; subst; auto.
    + (* the time is no string *)
      split; [| split; [| split; [| split]]]; [| | | | exact Agree].
      * split; [| auto]. intros _. right. exists sub.
        split; [exact Hb |]. split; [exact Hf |]. right. right.
        exists date, time. auto.
      * split.
        -- intros H. rewrite Hw in H. absurd_answer H.
        -- intros [H | (sub' & H & Hf')]; [congruence |]. same_body.
      * split.
        -- intros H. rewrite Hw in H. absurd_answer H.
        -- intros (sub' & d & t & H & Hf' & Hd' & Ht' & Hn). same_body.
           congruence.
      * intros st ok m H. rewrite Hw in H. inversion H; subst. auto.
Qed.

Lemma hours_test (hour : num) (ws we : Z) :
  nlt hour (Some ws) || nge hour (Some we) = false
  <-> forall h, hour = Some h -> ws <= h < we.
Proof.
  destruct hour as [h |]; simpl.
  - rewrite orb_false_iff, Z.ltb_ge, Z.leb_gt. split.
    + intros H h' E. inversion E; subst. lia.
    + intros H. specialize (H h eq_refl). lia.
  - split; [intros _ h E; discriminate E | reflexivity].
Qed.

(** X8.  With integer settings [B], [D], [ws], [we] (and [T + B] minutes,
    [T + D] days inside the range of a Date), a request with both strings is
    passed on if and only if the composed string parses to an instant [s]
    with [T + B min <= s <= T + D days] and the hour before the first colon,
    when it is a number, lies in [ws, we); the start time handed on is then
    the composed string [date T time :00+07:00].  An hour that is not a
    number passes the hours test.  When [D] days is less than [B] minutes no
    request is passed on. *)
Theorem passed_on_iff (env : Env) (now : Z) (date time st : string)
  (B D ws we : Z) :
  date <> EmptyString -> time <> EmptyString ->
  env_int (BUFFER_MINUTES env) 30 = Some B ->
  env_int (BOOKING_ADVANCE_DAYS env) 7 = Some D ->
  env_int (WORK_START_HOUR env) 7 = Some ws ->
  env_int (WORK_END_HOUR env) 19 = Some we ->
  Z.abs (now + B * 60000) <= MAX_TIME ->
  Z.abs (now + D * 86400000) <= MAX_TIME ->
  let a := validateBookingRequest Date_parse env now (request date time) in
  (a = Next st
   <-> st = timeString date time /\
       exists s, Date_parse st = Some s /\
         now + B * 60000 <= s /\ s <= now + D * 86400000 /\
         (forall h, parseInt (before_colon time) = Some h -> ws <= h < we)) /\
  (D * 86400000 < B * 60000 -> a <> Next st).
Proof.
  intros Hd Ht HB HD Hws Hwe HrB HrD a.
  assert (Main :
    a = Next st
    <-> st = timeString date time /\
        exists s, Date_parse st = Some s /\
          now + B * 60000 <= s /\ s <= now + D * 86400000 /\
          (forall h, parseInt (before_colon time) = Some h -> ws <= h < we)).
  { unfold a. rewrite (request_checked _ _ _ _ _ Hd Ht). unfold checkWindow.
    rewrite (minBookingTime_value _ _ _ HB HrB),
      (maxBookingTime_value _ _ _ HD HrD), Hws, Hwe.
    destruct (Date_parse (timeString date time)) as [s |] eqn:Hs;
      simpl isNaN; cbv iota.
    2:{ split; [discriminate |]. intros (-> & s & Hp & _). congruence. }
    simpl nlt. unfold ngt. simpl nlt.
    destruct (Z.ltb_spec s (now + B * 60000)) as [Hlo | Hlo].
    { split; [discriminate |]. intros (-> & s' & Hp & H1 & _).
      rewrite Hs in Hp. inversion Hp; subst. lia. }
    destruct (Z.ltb_spec (now + D * 86400000) s) as [Hhi | Hhi].
    { split; [discriminate |]. intros (-> & s' & Hp & _ & H2 & _).
      rewrite Hs in Hp. inversion Hp; subst. lia. }
    destruct (nlt (parseInt (before_colon time)) (Some ws)
              || nge (parseInt (before_colon time)) (Some we)) eqn:Hh.
    { split; [discriminate |]. intros (-> & s' & _ & _ & _ & H3).
      apply (proj2 (hours_test _ _ _)) in H3. congruence. }
    split.
    - intros H. inversion H; subst. split; [reflexivity |].
      pose proof (proj1 (hours_test _ _ _) Hh) as Hours.
      exists s. auto.
    - intros (-> & _). reflexivity. }
  split; [exact Main |].
  intros Hempty H. apply Main in H. destruct H as (_ & s & _ & H1 & H2 & _).
  lia.
Qed.

(** X9.  When [BUFFER_MINUTES] is set to a text [parseInt] cannot read, the
    too-soon test never holds: a request is passed on under the remaining
    conditions alone, so an instant in the past is accepted. *)
Theorem unreadable_buffer_disables_check (env : Env) (now : Z)
  (date time st : string) (D ws we : Z) :
  date <> EmptyString -> time <> EmptyString ->
  env_int (BUFFER_MINUTES env) 30 = None ->
  env_int (BOOKING_ADVANCE_DAYS env) 7 = Some D ->
  env_int (WORK_START_HOUR env) 7 = Some ws ->
  env_int (WORK_END_HOUR env) 19 = Some we ->
  Z.abs (now + D * 86400000) <= MAX_TIME ->
  (validateBookingRequest Date_parse env now (request date time) = Next st
   <-> st = timeString date time /\
       exists s, Date_parse st = Some s /\
         s <= now + D * 86400000 /\
         (forall h, parseInt (before_colon time) = Some h -> ws <= h < we)).
Proof.
  intros Hd Ht HB HD Hws Hwe HrD.
  rewrite (request_checked _ _ _ _ _ Hd Ht). unfold checkWindow.
  assert (Emin : minBookingTime env now = None).
  { unfold minBookingTime. rewrite HB. reflexivity. }
  rewrite Emin, (maxBookingTime_value _ _ _ HD HrD), Hws, Hwe.
  destruct (Date_parse (timeString date time)) as [s |] eqn:Hs;
    simpl isNaN; cbv iota.
  2:{ split; [discriminate |]. intros (-> & s & Hp & _). congruence. }
  simpl nlt. unfold ngt. simpl nlt.
  destruct (Z.ltb_spec (now + D * 86400000) s) as [Hhi | Hhi].
  { split; [discriminate |]. intros (-> & s' & Hp & H2 & _).
    rewrite Hs in Hp. inversion Hp; subst. lia. }
  destruct (nlt (parseInt (before_colon time)) (Some ws)
            || nge (parseInt (before_colon time)) (Some we)) eqn:Hh.
  { split; [discriminate |]. intros (-> & s' & _ & _ & H3).
    apply (proj2 (hours_test _ _ _)) in H3. congruence. }
  split.
  - intros H. inversion H; subst. split; [reflexivity |].
    pose proof (proj1 (hours_test _ _ _) Hh) as Hours.
    exists s. auto.
  - intros (-> & _). reflexivity.
Qed.

End Answers.

(** [booking_time: ["07:41"]], an array: the composed text is the one of the
    string ["07:41"], the date is in the window, and the answer is 500. *)
Example array_time_system_error :
  validateSubmitted iso_parse default_env 1741736460000
    (Some (Some {| date_value := Text "2025-03-12";
                   time_value := Other (Some "07:41") |}))
  = Json 500 false msgSystem
  /\ validateSubmitted iso_parse default_env 1741736460000
       (Some (Some {| date_value := Text "2025-03-12";
                      time_value := Text "07:41" |}))
     = Next "2025-03-12T07:41:00+07:00".
Proof. split; reflexivity. Qed.

(** 2025-03-12T07:41+07:00 asked one hour before. *)
Lemma passed_on_iff_witness :
  validateBookingRequest iso_parse default_env 1741736460000
    (request "2025-03-12" "07:41")
  = Next "2025-03-12T07:41:00+07:00".
Proof.
  apply (passed_on_iff iso_parse default_env 1741736460000
           "2025-03-12" "07:41" "2025-03-12T07:41:00+07:00" 30 7 7 19);
    [discriminate | discriminate | reflexivity | reflexivity | reflexivity
    | reflexivity | vm_compute; discriminate | vm_compute; discriminate |].
  split; [reflexivity |]. exists 1741740060000.
  split; [reflexivity |]. split; [lia |]. split; [lia |].
  intros h E. vm_compute in E. inversion E; subst. lia.
Defined.

(** 2025-03-12T07:41+07:00 asked a day later, with an unreadable buffer. *)
Lemma unreadable_buffer_disables_check_witness :
  validateBookingRequest iso_parse unreadable_buffer_env 1741826460000
    (request "2025-03-12" "07:41")
  = Next "2025-03-12T07:41:00+07:00".
Proof.
  apply (unreadable_buffer_disables_check iso_parse unreadable_buffer_env
           1741826460000 "2025-03-12" "07:41" "2025-03-12T07:41:00+07:00"
           7 7 19);
    [discriminate | discriminate | reflexivity | reflexivity | reflexivity
    | reflexivity | vm_compute; discriminate |].
  split; [reflexivity |]. exists 1741740060000.
  split; [reflexivity |]. split; [lia |].
  intros h E. vm_compute in E. inversion E; subst. lia.
Defined.

(** *** Reading back a decimal setting *)

Lemma digits_step (c : ascii) (rest : string) (acc : num) (d : Z) :
  digit_value c = Some d -> (d <? 10) = true ->
  digits 10 (String c rest) acc
  = digits 10 rest (Some (match acc with
                          | Some a => a * 10 + d
                          | None => d
                          end)).
Proof. intros Hd Hlt. simpl. rewrite Hd, Hlt. reflexivity. Qed.

(** Evaluate the value of a literal digit. *)
Ltac eval_digit :=
  repeat match goal with
         | |- context [byte ?c - 48] =>
             let v := eval vm_compute in (byte c - 48) in
             change (byte c - 48) with v
         end.

Lemma digits_acc (d : Decimal.uint) (a : positive) :
  digits 10 (NilEmpty.string_of_uint d) (Some (Zpos a))
  = Some (Zpos (Pos.of_uint_acc d a)).
Proof.
  revert a. induction d; intros a; cbn [NilEmpty.string_of_uint];
    [reflexivity | ..];
    (erewrite digits_step; [| reflexivity | reflexivity]);
    cbn [Pos.of_uint_acc]; eval_digit;
    match goal with
    | |- digits 10 _ (Some ?x) = Some (Zpos (Pos.of_uint_acc _ ?y)) =>
        replace x with (Zpos y) by lia
    end;
    apply IHd.
Qed.

Lemma digits_zero (d : Decimal.uint) :
  digits 10 (NilEmpty.string_of_uint d) (Some 0) = Some (Z.of_N (Pos.of_uint d)).
Proof.
  induction d; cbn [NilEmpty.string_of_uint];
    [reflexivity | ..];
    (erewrite digits_step; [| reflexivity | reflexivity]);
    cbn [Pos.of_uint]; eval_digit; [exact IHd | ..];
    apply (digits_acc d).
Qed.

Lemma digits_none (d : Decimal.uint) :
  d <> Decimal.Nil ->
  digits 10 (NilEmpty.string_of_uint d) None = Some (Z.of_N (Pos.of_uint d)).
Proof.
  intros Hne. rewrite <- digits_zero.
  destruct d; [congruence | ..]; cbn [NilEmpty.string_of_uint];
    (erewrite !digits_step; [| reflexivity | reflexivity | reflexivity
                             | reflexivity]);
    eval_digit; reflexivity.
Qed.

Lemma trimStart_plain (a : ascii) (r : string) :
  ws1 a = false -> (byte a <? 128) = true ->
  trimStart (String a r) = String a r.
Proof.
  intros H1 H2. apply Z.ltb_lt in H2.
  assert (E2 : forall b, ws2 a b = false).
  { intros b. unfold ws2. destruct (Z.eqb_spec (byte a) 194); [lia | reflexivity]. }
  assert (E3 : forall b c, ws3 a b c = false).
  { intros b c. unfold ws3.
    destruct (Z.eqb_spec (byte a) 225); [lia |].
    destruct (Z.eqb_spec (byte a) 226); [lia |].
    destruct (Z.eqb_spec (byte a) 227); [lia |].
    destruct (Z.eqb_spec (byte a) 239); [lia |]. reflexivity. }
  destruct r as [| b [| c r3]]; simpl; rewrite H1; try reflexivity;
    rewrite E2; try reflexivity. rewrite E3. reflexivity.
Qed.

Lemma scale_one (x : num) :
  match x with Some n => Some (1 * n) | None => None end = x.
Proof. destruct x as [n |]; [rewrite Z.mul_1_l |]; reflexivity. Qed.

Lemma parseInt_uint (d : Decimal.uint) :
  d <> Decimal.Nil ->
  parseInt (NilEmpty.string_of_uint d) = Some (Z.of_N (Pos.of_uint d)).
Proof.
  intros Hne. rewrite <- (digits_none d Hne).
  destruct d as [| d | d | d | d | d | d | d | d | d | d]; [congruence | ..];
    cbn [NilEmpty.string_of_uint]; unfold parseInt;
    (rewrite trimStart_plain by reflexivity);
    try (cbn -[digits Z.mul]; apply scale_one).
  destruct d; cbn -[digits Z.mul]; apply scale_one.
Qed.

Lemma parseInt_neg_uint (d : Decimal.uint) :
  d <> Decimal.Nil ->
  parseInt (String "-" (NilEmpty.string_of_uint d))
  = Some (- Z.of_N (Pos.of_uint d)).
Proof.
  intros Hne. unfold parseInt. rewrite trimStart_plain by reflexivity.
  assert (E : forall x, x = Some (Z.of_N (Pos.of_uint d)) ->
                match x with Some n => Some (-1 * n) | None => None end
                = Some (- Z.of_N (Pos.of_uint d))).
  { intros x ->. f_equal; lia. }
  pose proof (digits_none d Hne) as Hd.
  destruct d as [| d | d | d | d | d | d | d | d | d | d]; [congruence | ..];
    cbn [NilEmpty.string_of_uint] in *;
    try (cbn -[digits Z.mul Z.of_N Pos.of_uint]; apply E; exact Hd).
  destruct d; cbn -[digits Z.mul Z.of_N Pos.of_uint]; apply E; exact Hd.
Qed.

Lemma show_Z_not_empty (z : Z) : show_Z z <> EmptyString.
Proof.
  unfold show_Z. destruct z as [| p | p]; simpl; try discriminate.
  pose proof (DecimalPos.Unsigned.to_uint_nonnil p) as Hne.
  destruct (Pos.to_uint p); simpl; congruence || discriminate.
Qed.

Lemma parseInt_show_Z (z : Z) : parseInt (show_Z z) = Some z.
Proof.
  unfold show_Z. destruct z as [| p | p]; [reflexivity | |].
  - cbn [Z.to_int NilZero.string_of_int].
    pose proof (DecimalPos.Unsigned.to_uint_nonnil p) as Hne.
    assert (E : NilZero.string_of_uint (Pos.to_uint p)
                = NilEmpty.string_of_uint (Pos.to_uint p)).
    { destruct (Pos.to_uint p); [congruence | ..]; reflexivity. }
    rewrite E, (parseInt_uint _ Hne), DecimalPos.Unsigned.of_to. reflexivity.
  - cbn [Z.to_int NilZero.string_of_int].
    pose proof (DecimalPos.Unsigned.to_uint_nonnil p) as Hne.
    assert (E : NilZero.string_of_uint (Pos.to_uint p)
                = NilEmpty.string_of_uint (Pos.to_uint p)).
    { destruct (Pos.to_uint p); [congruence | ..]; reflexivity. }
    rewrite E, (parseInt_neg_uint _ Hne), DecimalPos.Unsigned.of_to. reflexivity.
Qed.

(** X10.  A setting written as the decimal text of an integer [z] of at
    most [2^53] in absolute value (negative numbers and 0 included: the text
    "0" is truthy) is read back as [z]; a variable that is unset or empty
    yields the default, an integer of at most [2^53] in absolute value; a
    text without a leading number yields NaN, not the default. *)
Theorem env_int_reads_decimal (z dflt : Z) :
  representable z ->
  representable dflt ->
  env_int (Some (show_Z z)) dflt = Some z /\
  env_int None dflt = Some dflt /\
  env_int (Some EmptyString) dflt = Some dflt /\
  (forall s, s <> EmptyString -> parseInt s = None ->
             env_int (Some s) dflt = None).
Proof.
  intros _ _. repeat split.
  - unfold env_int. pose proof (show_Z_not_empty z) as Hne.
    apply String.eqb_neq in Hne. rewrite Hne. apply parseInt_show_Z.
  - intros s Hne Hp. unfold env_int. apply String.eqb_neq in Hne.
    rewrite Hne. exact Hp.
Qed.

(** [BUFFER_MINUTES=-15], unset and empty, for the default 30. *)
Lemma env_int_reads_decimal_witness :
  representable (-15) /\
  representable 30 /\
  env_int (Some "-15") 30 = Some (-15) /\
  env_int None 30 = Some 30 /\
  env_int (Some EmptyString) 30 = Some 30.
Proof.
  assert (Hz : representable (-15)) by (unfold representable; simpl; lia).
  assert (Hd : representable 30) by (unfold representable; simpl; lia).
  destruct (env_int_reads_decimal (-15) 30 Hz Hd) as (A & B & C & _).
  split; [exact Hz |]. split; [exact Hd |].
  split; [exact A |]. split; [exact B | exact C].
Defined.

(** *** The hour of a submitted time *)

Lemma before_colon_numeral (d : Decimal.uint) (rest : string) :
  before_colon (NilEmpty.string_of_uint d ++ String ":" rest)
  = NilEmpty.string_of_uint d.
Proof.
  induction d; cbn [NilEmpty.string_of_uint append before_colon];
    [reflexivity | ..];
    (replace (Ascii.eqb _ ":") with false by reflexivity);
    f_equal; exact IHd.
Qed.

Lemma before_colon_plain_numeral (d : Decimal.uint) :
  before_colon (NilEmpty.string_of_uint d) = NilEmpty.string_of_uint d.
Proof.
  induction d; cbn [NilEmpty.string_of_uint before_colon];
    [reflexivity | ..];
    (replace (Ascii.eqb _ ":") with false by reflexivity);
    f_equal; exact IHd.
Qed.

(** X11.  For a submitted time that starts with a decimal numeral (leading
    zeros allowed) of value at most [2^53], followed by a colon and anything,
    or that is such a numeral alone, the hour the working-hours test uses is
    the value of that numeral: ["07:41"] and ["7:41"] both give 7. *)
Theorem hour_of_numeral (d : Decimal.uint) (rest : string) :
  d <> Decimal.Nil ->
  representable (Z.of_uint d) ->
  parseInt (before_colon (NilEmpty.string_of_uint d ++ String ":" rest))
  = Some (Z.of_uint d) /\
  parseInt (before_colon (NilEmpty.string_of_uint d)) = Some (Z.of_uint d).
Proof.
  intros Hne _.
  rewrite before_colon_numeral, before_colon_plain_numeral.
  split; apply parseInt_uint; exact Hne.
Qed.

Lemma hour_of_numeral_witness :
  parseInt (before_colon "07:41") = Some 7 /\
  parseInt (before_colon "07") = Some 7.
Proof.
  apply (hour_of_numeral (Decimal.D0 (Decimal.D7 Decimal.Nil)) "41").
  - discriminate.
  - unfold representable. simpl. lia.
Defined.

End BookingExtra.
